(** * o1-proxy: the request rewriter and relay of [main.py]

    A shallow embedding of the two proxied FastAPI handlers, [proxy_post] and
    [proxy_get], of the restricted-model rewrite that [proxy_post] applies
    to the parsed request body, and of the tunnel start-up [start_ngrok],
    followed by the properties of the specification and of the code that
    can be stated over them. *)

From Stdlib Require Import ZArith SpecFloat.
From stdpp Require Import base option list strings gmap.

Local Open Scope string_scope.

(** ** Python values and the primitives the handlers use *)

Module Py.

(** What [json.loads] produces: [None], [bool], [int], [float], [str],
    [list] and [dict] with [str] keys.  A [dict] is a finite map: two
    dicts are equal in Python when they hold the same keys with the same
    values, whatever the insertion order. *)
#[local] Unset Elimination Schemes.
Inductive json : Type :=
  | JNull
  | JBool (b : bool)
  | JInt (z : Z)
  | JFloat (f : spec_float)
  | JStr (s : string)
  | JArr (items : list json)
  | JObj (fields : gmap string json).
#[local] Set Elimination Schemes.

(** The exception classes that can reach the handlers. *)
Inductive exn : Type :=
  | AttributeError
  | TypeError
  | IndexError
  | ValueError
  | JSONDecodeError
  | UnicodeDecodeError
  | ConnectionError.

(** An expression either yields a value or raises. *)
Inductive result (A : Type) : Type :=
  | Ok (a : A)
  | Raise (e : exn).
Arguments Ok {A} a.
Arguments Raise {A} e.

#[export] Instance result_ret : MRet result := λ A a, Ok a.
#[export] Instance result_bind : MBind result := λ A B k r,
  match r with
  | Ok a => k a
  | Raise e => Raise e
  end.

(** [s.startswith(p)] *)
Definition startswith (s p : string) : bool := String.prefix p s.

(** [s.split(sep)] for a non-empty [sep]: the text is scanned from the
    left, every occurrence of [sep] that does not overlap an earlier one
    ends a piece.  [skip] counts the characters of a matched separator that
    are still to be passed over.  The result always has a first piece. *)
Fixpoint split_from (sep : string) (skip : nat) (s : string) : list string :=
  match s with
  | EmptyString => [""]
  | String c s' =>
      match skip with
      | S k => split_from sep k s'
      | O =>
          if String.prefix sep s
          then "" :: split_from sep (String.length sep - 1) s'
          else match split_from sep 0 s' with
               | piece :: pieces => String c piece :: pieces
               | [] => [String c ""]
               end
      end
  end.

(** [s.split(sep)]; an empty separator is a [ValueError]. *)
Definition split (s sep : string) : result (list string) :=
  match sep with
  | EmptyString => Raise ValueError
  | _ => Ok (split_from sep 0 s)
  end.

(** [l[-1]]: the last element, [IndexError] on an empty list. *)
Definition index_last {A} (l : list A) : result A :=
  match last l with
  | Some x => Ok x
  | None => Raise IndexError
  end.

(** [not s] for an [Optional[str]]: [None] and the empty string are falsy. *)
Definition falsy (s : option string) : bool :=
  match s with
  | None => true
  | Some EmptyString => true
  | Some _ => false
  end.

(** [v == s] and [v != s] for a string literal [s]: only a [str] with the
    same characters is equal to it. *)
Definition eq_str (v : json) (s : string) : bool :=
  match v with
  | JStr t => bool_decide (t = s)
  | _ => false
  end.

Definition ne_str (v : json) (s : string) : bool := negb (eq_str v s).

(** [v in l] for a list [l] of string literals. *)
Definition in_strs (v : json) (l : list string) : bool :=
  existsb (eq_str v) l.

(** [v.get(key, dflt)]: only a [dict] has the method. *)
Definition get (v : json) (key : string) (dflt : json) : result json :=
  match v with
  | JObj d => Ok (default dflt (d !! key))
  | _ => Raise AttributeError
  end.

(** [for x in v]: a list yields its items, a [str] its characters, a
    [dict] its keys; the other values are not iterable.  The keys of a
    dict come in insertion order in Python and in the order of
    [map_to_list] here. *)
Fixpoint chars (s : string) : list json :=
  match s with
  | EmptyString => []
  | String c s' => JStr (String c "") :: chars s'
  end.

Definition iter (v : json) : result (list json) :=
  match v with
  | JArr items => Ok items
  | JStr s => Ok (chars s)
  | JObj d => Ok (JStr <$> (map_to_list d).*1)
  | _ => Raise TypeError
  end.

End Py.
Import Py.

(** ** The module constants *)

Definition OPENAI_API_BASE : string := "https://api.openai.com".

Definition O1_MODELS : list string := ["o1-preview"; "o1-mini"].

Definition UNSUPPORTED_PARAMETERS : list string :=
  ["temperature"; "top_p"; "n"; "presence_penalty"; "frequency_penalty";
   "stream"; "functions"; "function_call"; "logit_bias"; "user";
   "system_prompt"].

(** ** The restricted-model rewrite: lines 57 to 75 of [proxy_post]

    The source mutates the dict [body] in place; here every statement takes
    the dict and gives the next one. *)

Module Rewrite.

(** [for param in UNSUPPORTED_PARAMETERS: body.pop(param, None)] *)
Definition pop_unsupported (body : gmap string json) : gmap string json :=
  foldl (λ b param, delete param b) body UNSUPPORTED_PARAMETERS.

(** The [if "max_tokens" in body: ... else: ...] statement. *)
Definition max_tokens_step (body : gmap string json) : gmap string json :=
  match body !! "max_tokens" with
  | Some v => <["max_completion_tokens" := v]> (delete "max_tokens" body)
  | None => <["max_completion_tokens" := JInt 25000]> body
  end.

(** [[msg for msg in items if msg.get("role") != "system"]] *)
Fixpoint keep_non_system (items : list json) : result (list json) :=
  match items with
  | [] => Ok []
  | msg :: rest =>
      role ← get msg "role" JNull;
      kept ← keep_non_system rest;
      Ok (if ne_str role "system" then msg :: kept else kept)
  end.

(** [body["messages"] = [... for msg in body.get("messages", []) ...]] *)
Definition messages_step (body : gmap string json)
  : result (gmap string json) :=
  items ← iter (default (JArr []) (body !! "messages"));
  kept ← keep_non_system items;
  Ok (<["messages" := JArr kept]> body).

(** [model = body.get("model", ""); model in O1_MODELS] *)
Definition restricted (body : gmap string json) : bool :=
  in_strs (default (JStr "") (body !! "model")) O1_MODELS.

(** Lines 57 to 75, with the body that is then forwarded as result.
    [body.get] exists only when the parsed body is a dict. *)
Definition rewrite_body (body : json) : result json :=
  match body with
  | JObj b =>
      if restricted b then
        b' ← messages_step (max_tokens_step (pop_unsupported b));
        Ok (JObj b')
      else Ok body
  | _ => Raise AttributeError
  end.

End Rewrite.
Import Rewrite.

(** ** The handlers

    A handler talks to the outside world three times: it reads and parses
    the request body, and it calls [requests.post] or [requests.get].  Each
    of these is recorded in the trace of the run, in order. *)

Module Handler.

Definition headers : Type := list (string * string).

Inductive event : Type :=
  | AwaitRequestJson
  | RequestsPost (url : string) (hdrs : headers) (json_body : json)
  | RequestsGet (url : string) (hdrs : headers).

(** The upstream response as far as the handlers look at it. *)
Record Response : Type := {
  status_code : Z;
  iter_content : Z → list string
}.

(** How a handler ends. *)
Inductive outcome : Type :=
  | RaiseHTTPException (status : Z) (detail : string)
  | ReturnJSONResponse (content : json) (status : Z)
  | ReturnStreamingResponse (chunks : list string) (status : Z)
  | Uncaught (e : exn).

(** A run: the trace so far, and either the way the handler has ended or
    the value of the statement. *)
Definition run (A : Type) : Type := list event * (outcome + A).

#[export] Instance run_ret : MRet run := λ A a, ([], inr a).
#[export] Instance run_bind : MBind run := λ A B k m,
  match m with
  | (t, inl o) => (t, inl o)
  | (t, inr a) => let '(t', r) := k a in ((t ++ t')%list, r)
  end.

Definition finish {A} (o : outcome) : run A := ([], inl o).
Definition emit (e : event) : run unit := ([e], inr tt).

(** An exception nobody catches ends the handler. *)
Definition lift {A} (r : result A) : run A :=
  match r with
  | Ok a => mret a
  | Raise e => finish (Uncaught e)
  end.

Definition close (m : run outcome) : list event * outcome :=
  (m.1, match m.2 with inl o => o | inr o => o end).

(** What the caller receives.  [HTTPException] is rendered by FastAPI as
    a JSON response [{"detail": detail}] with the status of the exception,
    an uncaught exception as a server error. *)
Inductive reply : Type :=
  | ReplyJson (status : Z) (content : json)
  | ReplyStream (status : Z) (chunks : list string)
  | ReplyServerError.

Definition respond (o : outcome) : reply :=
  match o with
  | RaiseHTTPException status detail =>
      ReplyJson status (JObj {[ "detail" := JStr detail ]})
  | ReturnJSONResponse content status => ReplyJson status content
  | ReturnStreamingResponse chunks status => ReplyStream status chunks
  | Uncaught _ => ReplyServerError
  end.

Section World.

(** [request.json()] on the raw body, and the two calls of [requests]. *)
Variable json_loads : string → result json.
Variable requests_post : string → headers → json → result Response.
Variable requests_get : string → headers → result Response.

(** [if not authorization or not authorization.startswith("Bearer "):
    raise HTTPException(...)]; past it [authorization] is a [str]. *)
Definition require_bearer (authorization : option string) : run string :=
  match authorization with
  | Some a =>
      if falsy authorization || negb (startswith a "Bearer ")
      then finish (RaiseHTTPException 401
             "Authorization header with Bearer token is required")
      else mret a
  | None =>
      finish (RaiseHTTPException 401
        "Authorization header with Bearer token is required")
  end.

(** [authorization.split("Bearer ")[-1]] *)
Definition api_key (authorization : string) : result string :=
  pieces ← split authorization "Bearer ";
  index_last pieces.

(** The [try: body = await request.json() except json.JSONDecodeError]
    statement. *)
Definition request_json (raw : string) : run json :=
  emit AwaitRequestJson;;
  match json_loads raw with
  | Ok body => mret body
  | Raise JSONDecodeError =>
      finish (ReturnJSONResponse
                (JObj {[ "error" := JStr "Invalid JSON data" ]}) 400)
  | Raise e => finish (Uncaught e)
  end.

Definition proxy_post (path : string) (request : string)
    (authorization : option string) : list event * outcome :=
  close (
    auth ← require_bearer authorization;
    openai_api_key ← lift (api_key auth);
    let openai_url := OPENAI_API_BASE +:+ "/v1/" +:+ path in
    body ← request_json request;
    body ← lift (rewrite_body body);
    let hdrs := [("Authorization", "Bearer " +:+ openai_api_key);
                 ("Content-Type", "application/json")] in
    emit (RequestsPost openai_url hdrs body);;
    response ← lift (requests_post openai_url hdrs body);
    mret (ReturnStreamingResponse (iter_content response 8192)
                                  (status_code response))).

Definition proxy_get (path : string) (authorization : option string)
    : list event * outcome :=
  close (
    auth ← require_bearer authorization;
    openai_api_key ← lift (api_key auth);
    let openai_url := OPENAI_API_BASE +:+ "/v1/" +:+ path in
    let hdrs := [("Authorization", "Bearer " +:+ openai_api_key)] in
    emit (RequestsGet openai_url hdrs);;
    response ← lift (requests_get openai_url hdrs);
    mret (ReturnStreamingResponse (iter_content response 8192)
                                  (status_code response))).

End World.

(** The upstream is contacted in a run. *)
Definition contacts_upstream (e : event) : bool :=
  match e with
  | RequestsPost _ _ _ | RequestsGet _ _ => true
  | AwaitRequestJson => false
  end.

End Handler.
Import Handler.

(** ** Notions of the specification *)

(** A message of the request: a dict whose ["role"] is the string
    ["system"], and a dict at all. *)
Definition is_system (msg : json) : bool :=
  match msg with
  | JObj d => eq_str (default JNull (d !! "role")) "system"
  | _ => false
  end.

Definition is_dict (v : json) : bool :=
  match v with
  | JObj _ => true
  | _ => false
  end.

(** The messages the comprehension runs over: [body.get("messages", [])]. *)
Definition messages_of (b : gmap string json) : json :=
  default (JArr []) (b !! "messages").

(** The [Authorization] header of an upstream call. *)
Fixpoint header (name : string) (hdrs : headers) : option string :=
  match hdrs with
  | [] => None
  | (n, v) :: rest => if String.eqb n name then Some v else header name rest
  end.

Definition sent_authorization (e : event) : option string :=
  match e with
  | RequestsPost _ hdrs _ | RequestsGet _ hdrs => header "Authorization" hdrs
  | AwaitRequestJson => None
  end.

(** [sep] occurs somewhere in [s]. *)
Fixpoint occurs (sep s : string) : bool :=
  match s with
  | EmptyString => String.prefix sep ""
  | String _ s' => String.prefix sep s || occurs sep s'
  end.

(** ** Sample bodies *)

Module Sample.

Definition system_x : json :=
  JObj {[ "role" := JStr "system"; "content" := JStr "x" ]}.
Definition user_y : json :=
  JObj {[ "role" := JStr "user"; "content" := JStr "y" ]}.

(** [{"model": "o1-preview", "max_tokens": 500, "temperature": 0.7,
      "seed": 7, "messages": [system_x, user_y]}] *)
Definition chat : gmap string json :=
  {[ "model" := JStr "o1-preview";
     "max_tokens" := JInt 500;
     "temperature" := JFloat (S754_finite false 6305039478318694 (-53));
     "seed" := JInt 7;
     "messages" := JArr [system_x; user_y] ]}.

Definition chat_rewritten : gmap string json :=
  {[ "model" := JStr "o1-preview";
     "max_completion_tokens" := JInt 500;
     "seed" := JInt 7;
     "messages" := JArr [user_y] ]}.

(** [{"model": "o1-mini", "max_completion_tokens": 100}] *)
Definition budgeted : gmap string json :=
  {[ "model" := JStr "o1-mini"; "max_completion_tokens" := JInt 100 ]}.

(** [{"model": "o1-mini", "max_tokens": 500}] *)
Definition capped : gmap string json :=
  {[ "model" := JStr "o1-mini"; "max_tokens" := JInt 500 ]}.

(** [{"model": "o1-mini", "messages": 5}] and
    [{"model": "o1-mini", "messages": [1]}] *)
Definition messages_number : gmap string json :=
  {[ "model" := JStr "o1-mini"; "messages" := JInt 5 ]}.
Definition messages_of_numbers : gmap string json :=
  {[ "model" := JStr "o1-mini"; "messages" := JArr [JInt 1] ]}.

(** [{"model": "gpt-4o", "temperature": 0.7, "max_tokens": 500,
      "messages": [system_x]}] *)
Definition other_model : gmap string json :=
  {[ "model" := JStr "gpt-4o";
     "temperature" := JFloat (S754_finite false 6305039478318694 (-53));
     "max_tokens" := JInt 500;
     "messages" := JArr [system_x] ]}.

End Sample.

(** A test double of the outside world: the body ["not-json"] does not
    parse, every other body parses to [Sample.other_model]; the upstream
    answers 200 with one chunk. *)
Module Stub.

Definition json_loads (raw : string) : result json :=
  if String.eqb raw "not-json" then Raise JSONDecodeError
  else Ok (JObj Sample.other_model).

Definition upstream : Response :=
  {| status_code := 200; iter_content := λ _, ["data: [DONE]"] |}.

Definition requests_post (url : string) (hdrs : headers) (body : json)
  : result Response := Ok upstream.

Definition requests_get (url : string) (hdrs : headers)
  : result Response := Ok upstream.

End Stub.

(** The [messages] that the rewrite gets through: no [messages] at all, a
    list of objects, the empty string or the empty object. *)
Definition tolerated_messages (b : gmap string json) : Prop :=
  b !! "messages" = None
  ∨ (∃ items, b !! "messages" = Some (JArr items)
              ∧ Forall (λ msg, is_dict msg = true) items)
  ∨ b !! "messages" = Some (JStr "")
  ∨ b !! "messages" = Some (JObj ∅).

(** The values a [for] cannot run over: [None], booleans and numbers. *)
Definition not_iterable (v : json) : bool :=
  match v with
  | JNull | JBool _ | JInt _ | JFloat _ => true
  | _ => false
  end.

(** [sep.join(pieces)], the inverse of [split]. *)
Fixpoint join (sep : string) (pieces : list string) : string :=
  match pieces with
  | [] => ""
  | [piece] => piece
  | piece :: rest => piece +:+ sep +:+ join sep rest
  end.

(** The body handed to an upstream POST is clean: it holds no unsupported
    parameter and no [max_tokens], it holds [max_completion_tokens], and its
    [messages] are a list without system messages. *)
Definition clean (b : gmap string json) : Prop :=
  (∀ p, p ∈ UNSUPPORTED_PARAMETERS → b !! p = None)
  ∧ b !! "max_tokens" = None
  ∧ is_Some (b !! "max_completion_tokens")
  ∧ ∃ kept, b !! "messages" = Some (JArr kept)
            ∧ Forall (λ msg, is_system msg = false) kept.

(** ** The welcome route: [root] *)

(** [return {"message": "Welcome to the OpenAI Proxy!"}] *)
Definition root : json :=
  JObj {[ "message" := JStr "Welcome to the OpenAI Proxy!" ]}.

(** ** The tunnel start-up: [start_ngrok] *)

Module Launch.

(** The exceptions of this part: those of the handlers, the [KeyError] of a
    missing dict key and the [OSError] of a process that cannot be started.
    All of them are subclasses of [Exception]. *)
Inductive raised : Type :=
  | Std (e : exn)
  | KeyError
  | OSError.

Inductive attempt (A : Type) : Type :=
  | Returns (a : A)
  | Raises (e : raised).
Arguments Returns {A} a.
Arguments Raises {A} e.

(** [v[key]] for a string [key]: the value of a dict, [KeyError] when the
    key is missing; no other value takes a string subscript. *)
Definition getitem_str (v : json) (key : string) : attempt json :=
  match v with
  | JObj d =>
      match d !! key with
      | Some x => Returns x
      | None => Raises KeyError
      end
  | _ => Raises (Std TypeError)
  end.

(** [v[0]]: the first item of a list, the first character of a [str],
    [IndexError] when they are empty; a parsed dict has string keys only,
    so [0] is a missing key; the other values take no subscript. *)
Definition getitem_0 (v : json) : attempt json :=
  match v with
  | JArr (x :: _) => Returns x
  | JArr [] => Raises (Std IndexError)
  | JStr (String c _) => Returns (JStr (String c ""))
  | JStr EmptyString => Raises (Std IndexError)
  | JObj _ => Raises KeyError
  | _ => Raises (Std TypeError)
  end.

(** What [start_ngrok] does to the outside world, in order. *)
Inductive action : Type :=
  | Popen (cmd : list string)
  | Sleep (seconds : Z)
  | Get (url : string)
  | Print (line : string).

(** The answer of the ngrok API as far as [start_ngrok] looks at it:
    [ngrok_response.json()]. *)
Record TunnelsResponse : Type := { json_of : attempt json }.

(** A script: the actions so far, and the value or the exception. *)
Definition script (A : Type) : Type := list action * attempt A.

#[export] Instance script_ret : MRet script := λ A a, ([], Returns a).
#[export] Instance script_bind : MBind script := λ A B k m,
  match m with
  | (t, Raises e) => (t, Raises e)
  | (t, Returns a) => let '(t', r) := k a in ((t ++ t')%list, r)
  end.

(** An action whose result the world gives, and a pure step. *)
Definition perform {A} (a : action) (r : attempt A) : script A := ([a], r).
Definition step {A} (r : attempt A) : script A := ([], r).

(** [try: m except Exception as e: handler e] *)
Definition try_except {A} (m : script A) (handler : raised → script A)
  : script A :=
  match m with
  | (t, Returns a) => (t, Returns a)
  | (t, Raises e) => let '(t', r) := handler e in ((t ++ t')%list, r)
  end.

Section World.

(** [subprocess.Popen], [requests.get], and [str(e)] of an exception. *)
Variable popen : list string → attempt unit.
Variable requests_get : string → attempt TunnelsResponse.
Variable str_exn : raised → string.

(** The function returns a JSON value, [None] being [JNull]. *)
Definition start_ngrok : script json :=
  let ngrok_command := ["ngrok"; "http"; "5000"] in
  ngrok_process ← perform (Popen ngrok_command) (popen ngrok_command);
  perform (Sleep 2) (Returns tt);;
  try_except
    (ngrok_response ← perform (Get "http://127.0.0.1:4040/api/tunnels")
                        (requests_get "http://127.0.0.1:4040/api/tunnels");
     parsed ← step (json_of ngrok_response);
     tunnels ← step (getitem_str parsed "tunnels");
     tunnel ← step (getitem_0 tunnels);
     ngrok_url ← step (getitem_str tunnel "public_url");
     mret ngrok_url)
    (λ e, perform (Print ("Error fetching ngrok URL: " +:+ str_exn e))
                  (Returns tt);;
          mret JNull).

End World.

(** What the [try] block computes from the answer of the ngrok API. *)
Definition public_url (answer : attempt TunnelsResponse) : attempt json :=
  match answer with
  | Raises e => Raises e
  | Returns r =>
      match json_of r with
      | Raises e => Raises e
      | Returns parsed =>
          match getitem_str parsed "tunnels" with
          | Raises e => Raises e
          | Returns tunnels =>
              match getitem_0 tunnels with
              | Raises e => Raises e
              | Returns tunnel => getitem_str tunnel "public_url"
              end
          end
      end
  end.

End Launch.

(** A second test double: request bodies by name, an upstream that answers
    429, and an ngrok API with one tunnel. *)
Module Double.

Definition json_loads (raw : string) : result json :=
  if String.eqb raw "chat" then Ok (JObj Sample.chat)
  else if String.eqb raw "capped" then Ok (JObj Sample.capped)
  else if String.eqb raw "budgeted" then Ok (JObj Sample.budgeted)
  else if String.eqb raw "messages_number" then Ok (JObj Sample.messages_number)
  else if String.eqb raw "list" then Ok (JArr [])
  else if String.eqb raw "latin1" then Raise UnicodeDecodeError
  else Raise JSONDecodeError.

(** [{"model": "o1-mini", "max_tokens": 500, "max_completion_tokens": 100}] *)
Definition both_budgets : gmap string json :=
  {[ "model" := JStr "o1-mini"; "max_tokens" := JInt 500;
     "max_completion_tokens" := JInt 100 ]}.

(** [{"model": "o1-mini", "user": "u1", "messages": [user_y, {"content": "z"}]}] *)
Definition no_system : gmap string json :=
  {[ "model" := JStr "o1-mini"; "user" := JStr "u1";
     "messages" := JArr [Sample.user_y; JObj {[ "content" := JStr "z" ]}] ]}.

Definition limited : Response :=
  {| status_code := 429; iter_content := λ _, ["rate"; " limited"] |}.

Definition requests_post (url : string) (hdrs : headers) (body : json)
  : result Response := Ok limited.

Definition requests_get (url : string) (hdrs : headers)
  : result Response := Ok limited.

Definition down_post (url : string) (hdrs : headers) (body : json)
  : result Response := Raise ConnectionError.

Definition down_get (url : string) (hdrs : headers)
  : result Response := Raise ConnectionError.

Definition popen (cmd : list string) : Launch.attempt unit :=
  Launch.Returns tt.

Definition no_ngrok (cmd : list string) : Launch.attempt unit :=
  Launch.Raises Launch.OSError.

Definition tunnel : gmap string json :=
  {[ "name" := JStr "command_line";
     "public_url" := JStr "https://abc.ngrok.io" ]}.

Definition tunnels (up : bool) : gmap string json :=
  {[ "tunnels" := JArr (if up then [JObj tunnel] else []) ]}.

Definition ngrok_api (up : bool) (url : string)
  : Launch.attempt Launch.TunnelsResponse :=
  Launch.Returns {| Launch.json_of := Launch.Returns (JObj (tunnels up)) |}.

Definition str_exn (e : Launch.raised) : string :=
  match e with
  | Launch.Std IndexError => "list index out of range"
  | _ => "error"
  end.

End Double.

(** Closed decidable goals are settled by evaluation. *)
Ltac by_compute :=
  match goal with
  | |- ?P => apply (bool_decide_unpack P); vm_compute; exact I
  end.

(** ** The scenarios of the specification *)

Example rewrite_default_budget :
  rewrite_body
    (JObj {[ "model" := JStr "o1-mini";
             "messages" := JArr [JObj {[ "role" := JStr "user";
                                         "content" := JStr "hi" ]}] ]})
  = Ok (JObj {[ "model" := JStr "o1-mini";
                "max_completion_tokens" := JInt 25000;
                "messages" := JArr [JObj {[ "role" := JStr "user";
                                            "content" := JStr "hi" ]}] ]}).
Proof. vm_compute. reflexivity. Qed.

Example rewrite_rename :
  rewrite_body
    (JObj {[ "model" := JStr "o1-preview"; "max_tokens" := JInt 500;
             "temperature" :=
               JFloat (S754_finite false 6305039478318694 (-53)) ]})
  = Ok (JObj {[ "model" := JStr "o1-preview";
                "max_completion_tokens" := JInt 500;
                "messages" := JArr [] ]}).
Proof. vm_compute. reflexivity. Qed.

Example split_two : split "Bearer a Bearer b" "Bearer " = Ok [""; "a "; "b"].
Proof. reflexivity. Qed.

Example split_bare : split "Bearer " "Bearer " = Ok [""; ""].
Proof. reflexivity. Qed.

Example rewrite_chat :
  rewrite_body (JObj Sample.chat) = Ok (JObj Sample.chat_rewritten).
Proof. vm_compute. reflexivity. Qed.

(** ** Properties of the rewrite *)

Section RewriteFacts.

Implicit Types (b : gmap string json) (k : string) (items : list json).

Lemma lookup_foldl_delete (l : list string) b k :
  foldl (λ m p, delete p m) b l !! k
  = if decide (k ∈ l) then None else b !! k.
Proof.
  revert b. induction l as [|p l IH]; intros b; simpl.
  - destruct (decide (k ∈ [])) as [Hin|_]; [by inversion Hin | done].
  - rewrite IH.
    destruct (decide (k ∈ l)) as [Hl|Hl], (decide (k ∈ p :: l)) as [Hpl|Hpl];
      try done.
    + exfalso. apply Hpl. by right.
    + apply elem_of_cons in Hpl as [->|Hpl]; [|done].
      apply lookup_delete_eq.
    + apply lookup_delete_ne. intros ->. apply Hpl. by left.
Qed.

Lemma pop_unsupported_lookup b k :
  pop_unsupported b !! k
  = if decide (k ∈ UNSUPPORTED_PARAMETERS) then None else b !! k.
Proof. apply lookup_foldl_delete. Qed.

Lemma pop_unsupported_other b k :
  k ∉ UNSUPPORTED_PARAMETERS → pop_unsupported b !! k = b !! k.
Proof. intros. rewrite pop_unsupported_lookup. by rewrite decide_False. Qed.

Lemma max_tokens_step_completion b :
  max_tokens_step b !! "max_completion_tokens"
  = Some (default (JInt 25000) (b !! "max_tokens")).
Proof.
  unfold max_tokens_step.
  destruct (b !! "max_tokens"); simpl; by rewrite lookup_insert_eq.
Qed.

Lemma max_tokens_step_max_tokens b :
  max_tokens_step b !! "max_tokens" = None.
Proof.
  unfold max_tokens_step.
  destruct (b !! "max_tokens") eqn:E.
  - rewrite lookup_insert_ne by done. apply lookup_delete_eq.
  - by rewrite lookup_insert_ne.
Qed.

Lemma max_tokens_step_other b k :
  k ≠ "max_tokens" → k ≠ "max_completion_tokens" →
  max_tokens_step b !! k = b !! k.
Proof.
  intros H1 H2. unfold max_tokens_step.
  destruct (b !! "max_tokens").
  - rewrite lookup_insert_ne by done. by rewrite lookup_delete_ne.
  - by rewrite lookup_insert_ne.
Qed.

(** The comprehension succeeds exactly on dicts, and is then a filter. *)
Lemma keep_non_system_dicts items :
  Forall (λ msg, is_dict msg = true) items →
  keep_non_system items = Ok (filter (λ msg, is_system msg = false) items).
Proof.
  induction 1 as [|msg rest Hd _ IH]; [done|].
  destruct msg as [| | | | |?|d]; try discriminate.
  rewrite filter_cons. change (keep_non_system (JObj d :: rest))
    with (kept ← keep_non_system rest;
          Ok (if ne_str (default JNull (d !! "role")) "system"
              then JObj d :: kept else kept)).
  rewrite IH. unfold ne_str. cbn [is_system mbind result_bind].
  by destruct (eq_str _ _).
Qed.

Lemma keep_non_system_Ok items kept :
  keep_non_system items = Ok kept →
  Forall (λ msg, is_dict msg = true) items.
Proof.
  revert kept. induction items as [|msg rest IH]; intros kept H; [done|].
  destruct msg; try discriminate. cbn in H.
  destruct (keep_non_system rest) as [kept'|] eqn:E; [|discriminate].
  constructor; [done | by eapply IH].
Qed.

Lemma messages_step_inv b b' :
  messages_step b = Ok b' →
  ∃ items,
    iter (messages_of b) = Ok items
    ∧ Forall (λ msg, is_dict msg = true) items
    ∧ b' = <["messages" := JArr (filter (λ msg, is_system msg = false) items)]> b.
Proof.
  unfold messages_step, messages_of. intros H.
  destruct (iter _) as [items|] eqn:Ei; [|discriminate]. cbn in H.
  destruct (keep_non_system items) as [kept|] eqn:Ek; [|discriminate].
  cbn in H. injection H as <-.
  pose proof (keep_non_system_Ok _ _ Ek) as Hd.
  rewrite (keep_non_system_dicts _ Hd) in Ek. injection Ek as <-.
  eauto.
Qed.

Lemma messages_before_steps b :
  messages_of (max_tokens_step (pop_unsupported b)) = messages_of b.
Proof.
  unfold messages_of.
  rewrite max_tokens_step_other by done.
  rewrite pop_unsupported_other; [done | by_compute].
Qed.

Lemma in_strs_true (v : json) (l : list string) :
  in_strs v l = true ↔ ∃ s, s ∈ l ∧ v = JStr s.
Proof.
  unfold in_strs. induction l as [|s l IH]; simpl.
  - split; [done|]. by intros (s & Hs%elem_of_nil & _).
  - rewrite orb_true_iff, IH. split.
    + intros [H|(s' & Hs' & ->)].
      * destruct v; try done. apply bool_decide_eq_true in H as ->.
        exists s. split; [by left | done].
      * exists s'. split; [by right | done].
    + intros (s' & [->|Hs']%elem_of_cons & ->).
      * left. by apply bool_decide_eq_true.
      * right. eauto.
Qed.

(** The test of the code against the model field of the body. *)
Lemma restricted_true (b : gmap string json) :
  restricted b = true ↔ ∃ s, s ∈ O1_MODELS ∧ b !! "model" = Some (JStr s).
Proof.
  unfold restricted. rewrite in_strs_true. split.
  - intros (s & Hs & E). exists s. split; [done|].
    destruct (b !! "model") as [v|]; simpl in E; [by subst|].
    injection E as <-. exfalso. revert Hs. by_compute.
  - intros (s & Hs & ->). eauto.
Qed.

Lemma restricted_false (b : gmap string json) :
  restricted b = false ↔ ∀ s, s ∈ O1_MODELS → b !! "model" ≠ Some (JStr s).
Proof.
  rewrite <- not_true_iff_false, restricted_true. split.
  - intros H s Hs E. apply H. eauto.
  - intros H (s & Hs & E). by apply (H s).
Qed.

(** A body without a [model] field is not restricted. *)
Lemma restricted_no_model (b : gmap string json) :
  b !! "model" = None → restricted b = false.
Proof. intros H. unfold restricted. by rewrite H. Qed.

(** The rewrite of a restricted body, when it returns, in one equation. *)
Lemma rewrite_restricted_inv b out :
  restricted b = true →
  rewrite_body (JObj b) = Ok out →
  ∃ items,
    iter (messages_of b) = Ok items
    ∧ Forall (λ msg, is_dict msg = true) items
    ∧ out = JObj (<["messages" := JArr (filter (λ msg, is_system msg = false) items)]>
                    (max_tokens_step (pop_unsupported b))).
Proof.
  intros Hr H. unfold rewrite_body in H. rewrite Hr in H.
  destruct (messages_step _) as [b'|] eqn:E; [|discriminate].
  cbn in H. injection H as <-.
  apply messages_step_inv in E as (items & Hi & Hd & ->).
  rewrite messages_before_steps in Hi. eauto.
Qed.

End RewriteFacts.

(** ** The claims about the rewrite *)

(** C1 (the code departs from it): a restricted body that carries
    [max_completion_tokens] and no [max_tokens] does not keep its budget.
    On [{"model": "o1-mini", "max_completion_tokens": 100}] the [else]
    branch of the [max_tokens] test runs, and the forwarded body holds
    [max_completion_tokens = 25000]. *)
Theorem budget_overwritten_by_default :
  rewrite_body (JObj Sample.budgeted)
  = Ok (JObj {[ "model" := JStr "o1-mini";
                "max_completion_tokens" := JInt 25000;
                "messages" := JArr [] ]}).
Proof. vm_compute. reflexivity. Qed.

(** What the code does for a restricted body without [max_tokens], with
    or without a budget of its own: [max_completion_tokens] is 25000 in the
    result.  With neither key in the request this is the insertion of the
    default. *)
Lemma default_budget_inserted (b : gmap string json) (out : json) :
  restricted b = true →
  b !! "max_tokens" = None →
  rewrite_body (JObj b) = Ok out →
  ∃ b', out = JObj b' ∧ b' !! "max_completion_tokens" = Some (JInt 25000).
Proof.
  intros Hr Hm H. apply rewrite_restricted_inv in H as (items & _ & _ & ->); [|done].
  eexists; split; [done|].
  rewrite lookup_insert_ne by done. rewrite max_tokens_step_completion.
  rewrite pop_unsupported_other by by_compute. by rewrite Hm.
Qed.

(** C2 (the code departs from it): the rewrite is not idempotent.  On
    [{"model": "o1-mini", "max_tokens": 500}] the first pass renames the
    budget, [max_completion_tokens = 500]; the second pass finds no
    [max_tokens] and stores 25000. *)
Theorem second_rewrite_resets_budget :
  ∃ once twice : gmap string json,
    rewrite_body (JObj Sample.capped) = Ok (JObj once)
    ∧ rewrite_body (JObj once) = Ok (JObj twice)
    ∧ once !! "max_completion_tokens" = Some (JInt 500)
    ∧ twice !! "max_completion_tokens" = Some (JInt 25000)
    ∧ twice ≠ once.
Proof.
  exists {[ "model" := JStr "o1-mini"; "max_completion_tokens" := JInt 500;
            "messages" := JArr [] ]},
         {[ "model" := JStr "o1-mini"; "max_completion_tokens" := JInt 25000;
            "messages" := JArr [] ]}.
  repeat split; try (vm_compute; reflexivity).
  intros E. apply (f_equal (λ m : gmap string json, m !! "max_completion_tokens")) in E.
  vm_compute in E. discriminate.
Qed.

(** C3 as the specification states it fails: a [messages] value that is a
    number is not iterable, and a number inside the [messages] list has no
    [get]; both requests end in an exception. *)
Lemma rewrite_raises_on_malformed_messages :
  rewrite_body (JObj Sample.messages_number) = Raise TypeError
  ∧ rewrite_body (JObj Sample.messages_of_numbers) = Raise AttributeError.
Proof. split; vm_compute; reflexivity. Qed.

(** When the rewrite of a restricted body returns: exactly when the
    iteration over [body.get("messages", [])] yields dicts only. *)
Lemma rewrite_returns_iff (b : gmap string json) :
  restricted b = true →
  (∃ out, rewrite_body (JObj b) = Ok out)
  ↔ (∃ items, iter (messages_of b) = Ok items
              ∧ Forall (λ msg, is_dict msg = true) items).
Proof.
  intros Hr. split.
  - intros [out H].
    apply rewrite_restricted_inv in H as (items & Hi & Hd & _); eauto.
  - intros (items & Hi & Hd). unfold rewrite_body, messages_step. rewrite Hr.
    fold (messages_of (max_tokens_step (pop_unsupported b))).
    rewrite messages_before_steps, Hi. cbn.
    rewrite (keep_non_system_dicts _ Hd). cbn. eauto.
Qed.

(** The rewrite of a restricted body, by the two places where it can
    raise. *)
Lemma rewrite_restricted_eq (b : gmap string json) :
  restricted b = true →
  rewrite_body (JObj b)
  = match iter (messages_of b) with
    | Raise e => Raise e
    | Ok items =>
        match keep_non_system items with
        | Raise e => Raise e
        | Ok kept =>
            Ok (JObj (<["messages" := JArr kept]>
                        (max_tokens_step (pop_unsupported b))))
        end
    end.
Proof.
  intros Hr. unfold rewrite_body, messages_step. rewrite Hr.
  fold (messages_of (max_tokens_step (pop_unsupported b))).
  rewrite messages_before_steps.
  destruct (iter (messages_of b)) as [items|e]; [|done]. cbn.
  by destruct (keep_non_system items).
Qed.

Lemma keep_non_system_Raise (items : list json) (e : exn) :
  keep_non_system items = Raise e → e = AttributeError.
Proof.
  induction items as [|msg rest IH]; [done|].
  destruct msg; cbn; try by intros [= <-].
  destruct (keep_non_system rest); cbn; [done|].
  intros [= <-]. by apply IH.
Qed.

Lemma chars_dicts (s : string) :
  Forall (λ msg, is_dict msg = true) (chars s) → s = "".
Proof. destruct s; [done|]. cbn. by intros [[=] _]%Forall_cons. Qed.

Lemma strs_dicts (keys : list string) :
  Forall (λ msg, is_dict msg = true) (JStr <$> keys) → keys = [].
Proof. destruct keys; [done|]. cbn. by intros [[=] _]%Forall_cons. Qed.

(** The iteration yields objects only exactly on the tolerated shapes, and
    then it yields the list itself, or nothing. *)
Lemma iter_dicts_tolerated (b : gmap string json) (items : list json) :
  iter (messages_of b) = Ok items
  ∧ Forall (λ msg, is_dict msg = true) items
  ↔ tolerated_messages b
    ∧ items = match b !! "messages" with
              | Some (JArr l) => l
              | _ => []
              end.
Proof.
  unfold tolerated_messages, messages_of.
  destruct (b !! "messages") as [v|] eqn:E; cbn.
  - destruct v as [| | | |s|l|d]; cbn.
    1-4: split; [by intros [[=] _] | by intros [[[=]|[(? & [=] & _)|[[=]|[=]]]] _]].
    + split.
      * intros [[= <-] ->%chars_dicts]. split; [|done]. right; right. by left.
      * intros [[[=]|[(? & [=] & _)|[[= ->]|[=]]]] ->]. by split.
    + split.
      * intros [[= <-] Hd]. split; [|done]. right; left. eauto.
      * intros [[[=]|[(? & [= <-] & Hd)|[[=]|[=]]]] ->]. by split.
    + split.
      * intros [[= <-] Hk%strs_dicts].
        apply fmap_nil_inv in Hk. apply map_to_list_empty_iff in Hk as ->.
        split; [|by rewrite map_to_list_empty]. right; right. by right.
      * intros [[[=]|[(? & [=] & _)|[[=]|[= ->]]]] ->].
        rewrite map_to_list_empty. by split.
  - split.
    + intros [[= <-] _]. split; [by left | done].
    + intros [_ ->]. by split.
Qed.

Lemma is_system_false (d : gmap string json) :
  is_system (JObj d) = false ↔ d !! "role" ≠ Some (JStr "system").
Proof.
  cbn. destruct (d !! "role") as [v|]; cbn; [|done].
  destruct v; cbn; try done.
  rewrite bool_decide_eq_false. split; [by intros H [= ->] | by intros H ->].
Qed.

(** C3, amended: a body whose model is not restricted is returned as it
    is.  The rewrite of a restricted body returns exactly when the body has
    no [messages], or its [messages] are a list of objects, the empty
    string or the empty object; the [messages] of the result are then the
    entries of that list in their order, an entry being kept exactly when
    its [role] is not the string ["system"] (an entry without [role] is
    kept).  On every other restricted body the rewrite raises: [TypeError]
    when [messages] is [None], a boolean or a number, [AttributeError]
    otherwise. *)
Theorem rewrite_returns_exactly_on_tolerated_messages (b : gmap string json) :
  (restricted b = false → rewrite_body (JObj b) = Ok (JObj b))
  ∧ (restricted b = true →
     ((∃ out, rewrite_body (JObj b) = Ok out) ↔ tolerated_messages b)
     ∧ (tolerated_messages b →
        ∃ (b' : gmap string json) (items kept : list json),
          rewrite_body (JObj b) = Ok (JObj b')
          ∧ items = match b !! "messages" with
                    | Some (JArr l) => l
                    | _ => []
                    end
          ∧ b' !! "messages" = Some (JArr kept)
          ∧ kept = filter (λ msg, is_system msg = false) items
          ∧ (∀ d : gmap string json,
               JObj d ∈ items →
               (JObj d ∈ kept ↔ d !! "role" ≠ Some (JStr "system"))))
     ∧ (¬ tolerated_messages b →
        rewrite_body (JObj b)
        = Raise (if not_iterable (messages_of b)
                 then TypeError else AttributeError))).
Proof.
  split; [by intros Hr; unfold rewrite_body; rewrite Hr|].
  intros Hr. pose proof (rewrite_restricted_eq b Hr) as Heq.
  assert (∀ items, iter (messages_of b) = Ok items →
                   Forall (λ msg, is_dict msg = true) items →
                   rewrite_body (JObj b)
                   = Ok (JObj (<["messages" :=
                                   JArr (filter (λ msg, is_system msg = false)
                                                items)]>
                                 (max_tokens_step (pop_unsupported b)))))
    as Hok.
  { intros items Hi Hd. by rewrite Heq, Hi, (keep_non_system_dicts _ Hd). }
  split; [|split].
  - split.
    + intros [out H].
      apply rewrite_restricted_inv in H as (items & Hi & Hd & _); [|done].
      by apply (proj1 (iter_dicts_tolerated b items)).
    + intros Ht.
      destruct (proj2 (iter_dicts_tolerated b _) (conj Ht eq_refl)) as [Hi Hd].
      rewrite (Hok _ Hi Hd). eauto.
  - intros Ht.
    destruct (proj2 (iter_dicts_tolerated b _) (conj Ht eq_refl)) as [Hi Hd].
    eexists _, _, _. split; [exact (Hok _ Hi Hd)|]. split; [reflexivity|].
    split; [apply lookup_insert_eq|]. split; [reflexivity|].
    intros d Hin. rewrite list_elem_of_filter, is_system_false. tauto.
  - intros Hn. rewrite Heq.
    destruct (iter (messages_of b)) as [items|e] eqn:Hi.
    + assert (not_iterable (messages_of b) = false) as ->
        by (by destruct (messages_of b)).
      destruct (keep_non_system items) as [kept|e] eqn:Hk.
      * exfalso. apply Hn.
        apply (proj1 (iter_dicts_tolerated b items)).
        split; [done|]. by eapply keep_non_system_Ok.
      * by rewrite (keep_non_system_Raise _ _ Hk).
    + destruct (messages_of b); try done; by injection Hi as <-.
Qed.

Lemma rewrite_returns_exactly_on_tolerated_messages_witness :
  restricted Sample.chat = true
  ∧ tolerated_messages Sample.chat
  ∧ (∃ (b' : gmap string json) (items kept : list json),
       rewrite_body (JObj Sample.chat) = Ok (JObj b')
       ∧ items = match Sample.chat !! "messages" with
                 | Some (JArr l) => l
                 | _ => []
                 end
       ∧ b' !! "messages" = Some (JArr kept)
       ∧ kept = filter (λ msg, is_system msg = false) items
       ∧ (∀ d : gmap string json,
            JObj d ∈ items →
            (JObj d ∈ kept ↔ d !! "role" ≠ Some (JStr "system")))).
Proof.
  assert (restricted Sample.chat = true) as Hr by (vm_compute; reflexivity).
  assert (tolerated_messages Sample.chat) as Ht.
  { right; left. exists [Sample.system_x; Sample.user_y].
    split; [vm_compute; reflexivity | by repeat constructor]. }
  split; [exact Hr|]. split; [exact Ht|].
  exact (proj1 (proj2 (proj2 (rewrite_returns_exactly_on_tolerated_messages
                                Sample.chat) Hr)) Ht).
Defined.

(** An empty string and an empty object as [messages] are iterated as
    nothing: the rewrite returns with an empty [messages] list. *)
Example rewrite_tolerates_empty_string_and_object :
  rewrite_body (JObj {[ "model" := JStr "o1-mini"; "messages" := JStr "" ]})
  = Ok (JObj {[ "model" := JStr "o1-mini";
                "max_completion_tokens" := JInt 25000;
                "messages" := JArr [] ]})
  ∧ rewrite_body (JObj {[ "model" := JStr "o1-mini";
                          "messages" := JObj ∅ ]})
    = Ok (JObj {[ "model" := JStr "o1-mini";
                  "max_completion_tokens" := JInt 25000;
                  "messages" := JArr [] ]}).
Proof. split; vm_compute; reflexivity. Qed.

(** C4: the body that the rewrite returns for a restricted model holds none
    of the unsupported parameters, holds [max_completion_tokens] and not
    [max_tokens], and its [messages] are the messages of the request that
    are not system messages, in their order. *)
Theorem restricted_rewrite_shape (b : gmap string json) (out : json) :
  restricted b = true →
  rewrite_body (JObj b) = Ok out →
  ∃ (b' : gmap string json) (items kept : list json),
    out = JObj b'
    ∧ (∀ p, p ∈ UNSUPPORTED_PARAMETERS → b' !! p = None)
    ∧ is_Some (b' !! "max_completion_tokens")
    ∧ b' !! "max_tokens" = None
    ∧ iter (messages_of b) = Ok items
    ∧ b' !! "messages" = Some (JArr kept)
    ∧ kept = filter (λ msg, is_system msg = false) items
    ∧ Forall (λ msg, is_system msg = false) kept
    ∧ kept `sublist_of` items.
Proof.
  intros Hr H.
  apply rewrite_restricted_inv in H as (items & Hi & _ & ->); [|done].
  eexists _, items, _. split; [reflexivity|].
  split; [|split; [|split; [|split; [exact Hi|split; [|split; [reflexivity|split]]]]]].
  - intros p Hp.
    assert (p ≠ "messages") by (intros ->; revert Hp; by_compute).
    assert (p ≠ "max_tokens") by (intros ->; revert Hp; by_compute).
    assert (p ≠ "max_completion_tokens") by (intros ->; revert Hp; by_compute).
    rewrite lookup_insert_ne by done.
    rewrite max_tokens_step_other by done.
    rewrite pop_unsupported_lookup. by rewrite decide_True.
  - rewrite lookup_insert_ne by done.
    rewrite max_tokens_step_completion. eauto.
  - rewrite lookup_insert_ne by done. apply max_tokens_step_max_tokens.
  - apply lookup_insert_eq.
  - apply list.Forall_forall. intros msg Hm.
    by apply list_elem_of_filter in Hm as [? _].
  - apply sublist_filter.
Qed.

Lemma restricted_rewrite_shape_witness :
  restricted Sample.chat = true
  ∧ rewrite_body (JObj Sample.chat) = Ok (JObj Sample.chat_rewritten)
  ∧ ∃ (b' : gmap string json) (items kept : list json),
      JObj Sample.chat_rewritten = JObj b'
      ∧ (∀ p, p ∈ UNSUPPORTED_PARAMETERS → b' !! p = None)
      ∧ is_Some (b' !! "max_completion_tokens")
      ∧ b' !! "max_tokens" = None
      ∧ iter (messages_of Sample.chat) = Ok items
      ∧ b' !! "messages" = Some (JArr kept)
      ∧ kept = filter (λ msg, is_system msg = false) items
      ∧ Forall (λ msg, is_system msg = false) kept
      ∧ kept `sublist_of` items.
Proof.
  split; [vm_compute; reflexivity|].
  split; [vm_compute; reflexivity|].
  apply (restricted_rewrite_shape Sample.chat (JObj Sample.chat_rewritten));
    vm_compute; reflexivity.
Defined.

(** C10: the rewrite of a restricted body keeps every other top-level key:
    a key that is not an unsupported parameter, [max_tokens],
    [max_completion_tokens] or [messages] is bound in the returned body as
    it is in the request. *)
Theorem restricted_rewrite_frame (b : gmap string json) (out : json) (k : string) :
  restricted b = true →
  rewrite_body (JObj b) = Ok out →
  k ∉ UNSUPPORTED_PARAMETERS →
  k ≠ "max_tokens" → k ≠ "max_completion_tokens" → k ≠ "messages" →
  ∃ b' : gmap string json, out = JObj b' ∧ b' !! k = b !! k.
Proof.
  intros Hr H Hk H1 H2 H3.
  apply rewrite_restricted_inv in H as (items & _ & _ & ->); [|done].
  eexists; split; [reflexivity|].
  rewrite lookup_insert_ne by done.
  rewrite max_tokens_step_other by done.
  by apply pop_unsupported_other.
Qed.

Lemma restricted_rewrite_frame_witness :
  restricted Sample.chat = true
  ∧ rewrite_body (JObj Sample.chat) = Ok (JObj Sample.chat_rewritten)
  ∧ ("seed" ∉ UNSUPPORTED_PARAMETERS)
  ∧ "seed" ≠ "max_tokens" ∧ "seed" ≠ "max_completion_tokens"
  ∧ "seed" ≠ "messages"
  ∧ (∃ b' : gmap string json,
       JObj Sample.chat_rewritten = JObj b'
       ∧ b' !! "seed" = Sample.chat !! "seed").
Proof.
  assert (restricted Sample.chat = true) as Hr by (vm_compute; reflexivity).
  assert (rewrite_body (JObj Sample.chat) = Ok (JObj Sample.chat_rewritten)) as Hw
    by (vm_compute; reflexivity).
  assert ("seed" ∉ UNSUPPORTED_PARAMETERS) as Hk by by_compute.
  assert ("seed" ≠ "max_tokens") as H1 by discriminate.
  assert ("seed" ≠ "max_completion_tokens") as H2 by discriminate.
  assert ("seed" ≠ "messages") as H3 by discriminate.
  repeat (split; [assumption|]).
  exact (restricted_rewrite_frame _ _ "seed" Hr Hw Hk H1 H2 H3).
Defined.

(** ** Properties of the handlers *)

Section HandlerFacts.

Lemma prefix_app (p t : string) : String.prefix p (p +:+ t) = true.
Proof.
  induction p as [|c p IH]; simpl; [by destruct t|].
  destruct (Ascii.ascii_dec c c); [exact IH | done].
Qed.

Lemma prefix_inv (p s : string) :
  String.prefix p s = true → ∃ t, s = p +:+ t.
Proof.
  revert s. induction p as [|c p IH]; intros s H; [by exists s|].
  destruct s as [|c' s]; [done|]. simpl in H.
  destruct (Ascii.ascii_dec c c') as [->|]; [|done].
  destruct (IH _ H) as [t ->]. by exists t.
Qed.

Lemma split_from_cons (sep : string) (skip : nat) (s : string) :
  ∃ piece pieces, split_from sep skip s = piece :: pieces.
Proof.
  revert skip. induction s as [|c s IH]; intros skip; [by eexists _, _|].
  cbn [split_from]. destruct skip; [|apply IH].
  destruct (String.prefix sep (String c s)); [by eexists _, _|].
  destruct (IH 0) as (piece & pieces & ->). by eexists _, _.
Qed.

(** The key extraction never raises. *)
Lemma api_key_total (authorization : string) :
  ∃ key, api_key authorization = Ok key.
Proof.
  unfold api_key. cbn.
  destruct (split_from_cons "Bearer " 0 authorization) as (piece & pieces & ->).
  unfold index_last. rewrite last_cons.
  destruct (last pieces); eauto.
Qed.

Lemma split_from_skip (sep u t : string) :
  split_from sep (String.length u) (u +:+ t) = split_from sep 0 t.
Proof.
  induction u as [|c u IH]; [done | exact IH].
Qed.

Lemma split_from_at_sep (c : Ascii.ascii) (sep t : string) :
  split_from (String c sep) 0 (String c sep +:+ t)
  = "" :: split_from (String c sep) 0 t.
Proof.
  change (String c sep +:+ t) with (String c (sep +:+ t)) at 1.
  cbn [split_from].
  change (String c (sep +:+ t)) with (String c sep +:+ t).
  rewrite prefix_app. cbn [String.length]. rewrite Nat.sub_1_r. cbn [Nat.pred].
  by rewrite split_from_skip.
Qed.

Lemma split_from_no_occurrence (sep s : string) :
  occurs sep s = false → split_from sep 0 s = [s].
Proof.
  induction s as [|c s IH]; [done|].
  cbn [occurs]. intros [Hp Ho]%orb_false_iff.
  cbn [split_from]. rewrite Hp. by rewrite (IH Ho).
Qed.

(** For a token in which ["Bearer "] does not occur, the key is the
    token. *)
Lemma api_key_plain_token (tok : string) :
  occurs "Bearer " tok = false →
  api_key ("Bearer " +:+ tok) = Ok tok.
Proof.
  intros Ho. unfold api_key, split.
  rewrite split_from_at_sep, (split_from_no_occurrence _ _ Ho).
  reflexivity.
Qed.

Lemma require_bearer_accept (tok : string) :
  require_bearer (Some ("Bearer " +:+ tok)) = mret ("Bearer " +:+ tok).
Proof.
  unfold require_bearer, startswith. by rewrite prefix_app.
Qed.

Lemma require_bearer_reject (authorization : option string) :
  ¬ (∃ tok, authorization = Some ("Bearer " +:+ tok)) →
  require_bearer authorization
  = finish (RaiseHTTPException 401
              "Authorization header with Bearer token is required").
Proof.
  intros H. destruct authorization as [a|]; [|done].
  unfold require_bearer.
  destruct (startswith a "Bearer ") eqn:E.
  - exfalso. apply H. apply prefix_inv in E as [t ->]. eauto.
  - by rewrite orb_true_r.
Qed.

End HandlerFacts.

(** ** The claims about the handlers *)

Section HandlerClaims.

Variable json_loads : string → result json.
Variable requests_post : string → headers → json → result Response.
Variable requests_get : string → headers → result Response.

Lemma run_bind_ret {A B} (a : A) (k : A → run B) : mret a ≫= k = k a.
Proof. unfold mret, run_ret, mbind, run_bind. by destruct (k a). Qed.

Lemma run_bind_lift_Ok {A B} (r : result A) (a : A) (k : A → run B) :
  r = Ok a → lift r ≫= k = k a.
Proof. intros ->. apply run_bind_ret. Qed.

(** What a run of [proxy_post] is once the header is accepted. *)
Lemma proxy_post_accepted (path request auth key : string) :
  require_bearer (Some auth) = mret auth →
  api_key auth = Ok key →
  let url := OPENAI_API_BASE +:+ "/v1/" +:+ path in
  let hdrs := [("Authorization", "Bearer " +:+ key);
               ("Content-Type", "application/json")] in
  proxy_post json_loads requests_post path request (Some auth)
  = match json_loads request with
    | Ok body =>
        match rewrite_body body with
        | Ok body' =>
            ([AwaitRequestJson; RequestsPost url hdrs body'],
             match requests_post url hdrs body' with
             | Ok response =>
                 ReturnStreamingResponse (iter_content response 8192)
                                         (status_code response)
             | Raise e => Uncaught e
             end)
        | Raise e => ([AwaitRequestJson], Uncaught e)
        end
    | Raise JSONDecodeError =>
        ([AwaitRequestJson],
         ReturnJSONResponse (JObj {[ "error" := JStr "Invalid JSON data" ]})
                            400)
    | Raise e => ([AwaitRequestJson], Uncaught e)
    end.
Proof.
  intros Ha Hk url hdrs. unfold proxy_post.
  rewrite Ha, run_bind_ret, (run_bind_lift_Ok _ _ _ Hk).
  unfold request_json.
  destruct (json_loads request) as [body|[]];
    cbn -[rewrite_body String.append]; try reflexivity.
  destruct (rewrite_body body) as [body'|e];
    cbn -[String.append]; [|reflexivity].
  fold url. fold hdrs. by destruct (requests_post url hdrs body').
Qed.

Lemma proxy_get_accepted (path auth key : string) :
  require_bearer (Some auth) = mret auth →
  api_key auth = Ok key →
  let url := OPENAI_API_BASE +:+ "/v1/" +:+ path in
  let hdrs := [("Authorization", "Bearer " +:+ key)] in
  proxy_get requests_get path (Some auth)
  = ([RequestsGet url hdrs],
     match requests_get url hdrs with
     | Ok response =>
         ReturnStreamingResponse (iter_content response 8192)
                                 (status_code response)
     | Raise e => Uncaught e
     end).
Proof.
  intros Ha Hk url hdrs. unfold proxy_get.
  rewrite Ha, run_bind_ret, (run_bind_lift_Ok _ _ _ Hk).
  cbn -[String.append]. fold url. fold hdrs.
  by destruct (requests_get url hdrs).
Qed.

(** C6: a request without an [Authorization] header of the form
    ["Bearer " ++ token], sent to either handler, ends in the 401
    exception with the fixed detail, which reaches the caller as
    [{"detail": ...}]; the trace of the run is empty: the body was not
    parsed and the upstream was not called. *)
Theorem missing_bearer_rejected (path request : string)
    (authorization : option string) :
  ¬ (∃ tok, authorization = Some ("Bearer " +:+ tok)) →
  let unauthorized :=
    RaiseHTTPException 401
      "Authorization header with Bearer token is required" in
  proxy_post json_loads requests_post path request authorization
    = ([], unauthorized)
  ∧ proxy_get requests_get path authorization = ([], unauthorized)
  ∧ respond unauthorized
    = ReplyJson 401
        (JObj {[ "detail" :=
                   JStr "Authorization header with Bearer token is required" ]}).
Proof.
  intros H. unfold proxy_post, proxy_get.
  rewrite (require_bearer_reject _ H). done.
Qed.

(** C7, amended: when [request.json()] raises for a POST request with a
    bearer credential, the run reads the body and makes no upstream call.
    If the exception is [JSONDecodeError] the request is answered with
    status 400 and [{"error": "Invalid JSON data"}]; any other exception of
    the parser is not caught and the request ends in a server error. *)
Theorem parse_failure_answered (path request tok : string) (e : exn) :
  json_loads request = Raise e →
  let run := proxy_post json_loads requests_post path request
                        (Some ("Bearer " +:+ tok)) in
  run.1 = [AwaitRequestJson]
  ∧ Forall (λ ev, contacts_upstream ev = false) run.1
  ∧ (e = JSONDecodeError →
     run.2 = ReturnJSONResponse
               (JObj {[ "error" := JStr "Invalid JSON data" ]}) 400
     ∧ respond run.2
       = ReplyJson 400 (JObj {[ "error" := JStr "Invalid JSON data" ]}))
  ∧ (e ≠ JSONDecodeError →
     run.2 = Uncaught e ∧ respond run.2 = ReplyServerError).
Proof.
  intros H run. subst run.
  destruct (api_key_total ("Bearer " +:+ tok)) as [key Hk].
  rewrite (proxy_post_accepted _ _ _ _ (require_bearer_accept tok) Hk), H.
  split; [by destruct e|]. split; [destruct e; by repeat constructor|].
  split; [by intros -> | by destruct e].
Qed.

(** C5: a body whose [model] is none of the restricted models (or is
    missing) is returned by the rewrite as it is, and that same body is
    what [proxy_post] hands to [requests.post]. *)
Theorem unrestricted_body_passes_through (path request tok : string)
    (b : gmap string json) :
  (∀ s, s ∈ O1_MODELS → b !! "model" ≠ Some (JStr s)) →
  json_loads request = Ok (JObj b) →
  rewrite_body (JObj b) = Ok (JObj b)
  ∧ (∃ key,
       api_key ("Bearer " +:+ tok) = Ok key
       ∧ (proxy_post json_loads requests_post path request
                     (Some ("Bearer " +:+ tok))).1
         = [AwaitRequestJson;
            RequestsPost (OPENAI_API_BASE +:+ "/v1/" +:+ path)
              [("Authorization", "Bearer " +:+ key);
               ("Content-Type", "application/json")]
              (JObj b)]).
Proof.
  intros Hm Hj.
  assert (rewrite_body (JObj b) = Ok (JObj b)) as Hw.
  { unfold rewrite_body. by rewrite (proj2 (restricted_false b) Hm). }
  split; [exact Hw|].
  destruct (api_key_total ("Bearer " +:+ tok)) as [key Hk].
  exists key. split; [exact Hk|].
  rewrite (proxy_post_accepted _ _ _ _ (require_bearer_accept tok) Hk).
  by rewrite Hj, Hw.
Qed.

(** C9: the header ["Bearer "] passes the check of both handlers; the
    key taken from it is the empty string, no run ends in the 401
    exception, and every upstream call of the run carries
    [Authorization: "Bearer "]. *)
Theorem bare_bearer_accepted (path request : string) :
  let url := OPENAI_API_BASE +:+ "/v1/" +:+ path in
  let post := proxy_post json_loads requests_post path request
                         (Some "Bearer ") in
  let get := proxy_get requests_get path (Some "Bearer ") in
  api_key "Bearer " = Ok ""
  ∧ get.1 = [RequestsGet url [("Authorization", "Bearer ")]]
  ∧ (∀ status detail, get.2 ≠ RaiseHTTPException status detail)
  ∧ (∀ status detail, post.2 ≠ RaiseHTTPException status detail)
  ∧ Forall (λ e, contacts_upstream e = true
                 → sent_authorization e = Some "Bearer ") post.1
  ∧ (∀ body body',
       json_loads request = Ok body → rewrite_body body = Ok body' →
       post.1 = [AwaitRequestJson;
                 RequestsPost url [("Authorization", "Bearer ");
                                   ("Content-Type", "application/json")]
                              body']).
Proof.
  intros url post get.
  assert (require_bearer (Some "Bearer ") = mret "Bearer ") as Ha
    by reflexivity.
  assert (api_key "Bearer " = Ok "") as Hk by reflexivity.
  split; [exact Hk|].
  subst post get.
  rewrite (proxy_get_accepted _ _ _ Ha Hk).
  rewrite (proxy_post_accepted _ _ _ _ Ha Hk).
  split; [done|]. split; [by destruct (requests_get _ _)|].
  destruct (json_loads request) as [body|e].
  - destruct (rewrite_body body) as [body'|e'] eqn:Hw.
    + split; [by destruct (requests_post _ _ _)|].
      split; [by repeat constructor|].
      intros ? body'' [= <-] Hw'. rewrite Hw in Hw'. by injection Hw' as <-.
    + split; [done|]. split; [by repeat constructor|].
      intros ? body'' [= <-] Hw'. by rewrite Hw in Hw'.
  - split; [by destruct e|]. split; [destruct e; by repeat constructor|].
    done.
Qed.

End HandlerClaims.

(** C8 (the code departs from it): the key is what follows the last
    ["Bearer "] of the header, not what follows its prefix.  For
    ["Bearer a Bearer b"] the key is ["b"], where the text after the
    seven-character prefix is ["a Bearer b"], and ["Bearer b"] is what goes
    upstream. *)
Theorem api_key_cut_at_last_bearer :
  api_key "Bearer a Bearer b" = Ok "b"
  ∧ (proxy_get Stub.requests_get "models" (Some "Bearer a Bearer b")).1
    = [RequestsGet "https://api.openai.com/v1/models"
                   [("Authorization", "Bearer b")]].
Proof. split; reflexivity. Qed.

Lemma missing_bearer_rejected_witness :
  ¬ (∃ tok, Some "Token abc" = Some ("Bearer " +:+ tok))
  ∧ proxy_post Stub.json_loads Stub.requests_post "chat/completions"
               "not-json" (Some "Token abc")
    = ([], RaiseHTTPException 401
             "Authorization header with Bearer token is required")
  ∧ proxy_get Stub.requests_get "models" (Some "Token abc")
    = ([], RaiseHTTPException 401
             "Authorization header with Bearer token is required")
  ∧ respond (RaiseHTTPException 401
               "Authorization header with Bearer token is required")
    = ReplyJson 401
        (JObj {[ "detail" :=
                   JStr "Authorization header with Bearer token is required" ]}).
Proof.
  assert (¬ (∃ tok, Some "Token abc" = Some ("Bearer " +:+ tok))) as H
    by (intros [tok [=]]).
  split; [exact H|].
  destruct (missing_bearer_rejected Stub.json_loads Stub.requests_post
              Stub.requests_get "chat/completions" "not-json"
              (Some "Token abc") H) as (Hpost & _ & Hreply).
  destruct (missing_bearer_rejected Stub.json_loads Stub.requests_post
              Stub.requests_get "models" "" (Some "Token abc") H)
    as (_ & Hget & _).
  split; [exact Hpost|]. split; [exact Hget | exact Hreply].
Defined.

Lemma parse_failure_answered_witness :
  Stub.json_loads "not-json" = Raise JSONDecodeError
  ∧ (proxy_post Stub.json_loads Stub.requests_post "chat/completions"
                "not-json" (Some ("Bearer " +:+ "sk-abc"))).1
    = [AwaitRequestJson]
  ∧ (proxy_post Stub.json_loads Stub.requests_post "chat/completions"
                "not-json" (Some ("Bearer " +:+ "sk-abc"))).2
    = ReturnJSONResponse (JObj {[ "error" := JStr "Invalid JSON data" ]}) 400
  ∧ respond (proxy_post Stub.json_loads Stub.requests_post
                        "chat/completions" "not-json"
                        (Some ("Bearer " +:+ "sk-abc"))).2
    = ReplyJson 400 (JObj {[ "error" := JStr "Invalid JSON data" ]}).
Proof.
  assert (Stub.json_loads "not-json" = Raise JSONDecodeError) as H
    by reflexivity.
  split; [exact H|].
  destruct (parse_failure_answered Stub.json_loads Stub.requests_post
              "chat/completions" "not-json" "sk-abc" JSONDecodeError H)
    as (Ht & _ & Hbad & _).
  split; [exact Ht|]. exact (Hbad eq_refl).
Defined.

(** C7 as the specification states it fails: a body that does not parse,
    because its bytes are not UTF-8 and [request.json()] raises
    [UnicodeDecodeError], is not answered with status 400: the exception
    leaves the handler. *)
Lemma undecodable_body_not_answered_400 :
  Double.json_loads "latin1" = Raise UnicodeDecodeError
  ∧ proxy_post Double.json_loads Double.requests_post "chat/completions"
               "latin1" (Some "Bearer sk-abc")
    = ([AwaitRequestJson], Uncaught UnicodeDecodeError)
  ∧ respond (Uncaught UnicodeDecodeError) = ReplyServerError
  ∧ respond (Uncaught UnicodeDecodeError)
    ≠ ReplyJson 400 (JObj {[ "error" := JStr "Invalid JSON data" ]}).
Proof. repeat split; try reflexivity. discriminate. Qed.

Lemma unrestricted_body_passes_through_witness :
  (∀ s, s ∈ O1_MODELS → Sample.other_model !! "model" ≠ Some (JStr s))
  ∧ Stub.json_loads "{}" = Ok (JObj Sample.other_model)
  ∧ rewrite_body (JObj Sample.other_model) = Ok (JObj Sample.other_model)
  ∧ (∃ key,
       api_key ("Bearer " +:+ "sk-abc") = Ok key
       ∧ (proxy_post Stub.json_loads Stub.requests_post "chat/completions"
                     "{}" (Some ("Bearer " +:+ "sk-abc"))).1
         = [AwaitRequestJson;
            RequestsPost (OPENAI_API_BASE +:+ "/v1/" +:+ "chat/completions")
              [("Authorization", "Bearer " +:+ key);
               ("Content-Type", "application/json")]
              (JObj Sample.other_model)]).
Proof.
  assert (∀ s, s ∈ O1_MODELS → Sample.other_model !! "model" ≠ Some (JStr s))
    as Hm by (apply restricted_false; vm_compute; reflexivity).
  assert (Stub.json_loads "{}" = Ok (JObj Sample.other_model)) as Hj
    by reflexivity.
  split; [exact Hm|]. split; [exact Hj|].
  exact (unrestricted_body_passes_through Stub.json_loads Stub.requests_post
           "chat/completions" "{}" "sk-abc" Sample.other_model Hm Hj).
Defined.

(** A run with the bare header on the test double: the upstream is reached
    with an empty token. *)
Example bare_bearer_run :
  proxy_post Stub.json_loads Stub.requests_post "chat/completions" "{}"
             (Some "Bearer ")
  = ([AwaitRequestJson;
      RequestsPost "https://api.openai.com/v1/chat/completions"
        [("Authorization", "Bearer "); ("Content-Type", "application/json")]
        (JObj Sample.other_model)],
     ReturnStreamingResponse ["data: [DONE]"] 200).
Proof. vm_compute. reflexivity. Qed.

(** ** Further properties of the rewrite *)

Section RewriteLaws.

Implicit Types (b : gmap string json) (k : string) (items : list json).

(** The body a restricted request is rewritten to, key by key. *)
Lemma rewritten_lookup b items k :
  <["messages" := JArr items]> (max_tokens_step (pop_unsupported b)) !! k
  = if decide (k = "messages") then Some (JArr items)
    else if decide (k = "max_completion_tokens")
         then Some (default (JInt 25000) (b !! "max_tokens"))
    else if decide (k = "max_tokens") then None
    else if decide (k ∈ UNSUPPORTED_PARAMETERS) then None
    else b !! k.
Proof.
  destruct (decide (k = "messages")) as [->|Hm]; [apply lookup_insert_eq|].
  rewrite lookup_insert_ne by done.
  destruct (decide (k = "max_completion_tokens")) as [->|Hc].
  { rewrite max_tokens_step_completion.
    by rewrite pop_unsupported_other by by_compute. }
  destruct (decide (k = "max_tokens")) as [->|Ht];
    [apply max_tokens_step_max_tokens|].
  rewrite max_tokens_step_other by done. apply pop_unsupported_lookup.
Qed.

Lemma rewritten_restricted b items :
  restricted (<["messages" := JArr items]> (max_tokens_step (pop_unsupported b)))
  = restricted b.
Proof.
  unfold restricted. rewrite rewritten_lookup.
  repeat (rewrite decide_False; [|by_compute || done]). done.
Qed.

(** Nothing is left to pop in a rewritten body. *)
Lemma pop_unsupported_rewritten b items :
  pop_unsupported
    (<["messages" := JArr items]> (max_tokens_step (pop_unsupported b)))
  = <["messages" := JArr items]> (max_tokens_step (pop_unsupported b)).
Proof.
  apply map_eq. intros k. rewrite pop_unsupported_lookup.
  destruct (decide (k ∈ UNSUPPORTED_PARAMETERS)) as [Hk|]; [|done].
  rewrite rewritten_lookup.
  assert (k ≠ "messages") by (intros ->; revert Hk; by_compute).
  assert (k ≠ "max_tokens") by (intros ->; revert Hk; by_compute).
  assert (k ≠ "max_completion_tokens") by (intros ->; revert Hk; by_compute).
  by rewrite !decide_False, decide_True by done.
Qed.

Lemma filter_dicts items :
  Forall (λ msg, is_dict msg = true) items →
  Forall (λ msg, is_dict msg = true)
         (filter (λ msg, is_system msg = false) items).
Proof.
  intros H. apply list.Forall_forall. intros msg Hm.
  apply list_elem_of_filter in Hm as [_ Hm].
  by apply (proj1 (list.Forall_forall _ _) H).
Qed.

Lemma filter_again items :
  filter (λ msg, is_system msg = false)
         (filter (λ msg, is_system msg = false) items)
  = filter (λ msg, is_system msg = false) items.
Proof.
  induction items as [|msg items IH]; [done|].
  rewrite filter_cons. destruct (decide (is_system msg = false)) as [E|E].
  - rewrite filter_cons, decide_True by done. by rewrite IH.
  - exact IH.
Qed.

(** The second pass over a rewritten body: it returns, and all it does is
    store 25000 as the budget. *)
Lemma rewrite_again b once :
  restricted b = true →
  rewrite_body (JObj b) = Ok (JObj once) →
  rewrite_body (JObj once)
  = Ok (JObj (<["max_completion_tokens" := JInt 25000]> once)).
Proof.
  intros Hr H.
  apply rewrite_restricted_inv in H as (items & Hi & Hd & [= ->]); [|done].
  set (kept := filter (λ msg, is_system msg = false) items).
  unfold rewrite_body. rewrite rewritten_restricted, Hr.
  rewrite pop_unsupported_rewritten.
  set (once := <["messages" := JArr kept]> (max_tokens_step (pop_unsupported b))).
  assert (max_tokens_step once = <["max_completion_tokens" := JInt 25000]> once)
    as ->.
  { unfold max_tokens_step.
    assert (once !! "max_tokens" = None) as ->; [|done].
    unfold once. by rewrite rewritten_lookup. }
  unfold messages_step.
  assert ((<["max_completion_tokens" := JInt 25000]> once) !! "messages"
          = Some (JArr kept)) as Hmsg.
  { rewrite lookup_insert_ne by done. apply lookup_insert_eq. }
  rewrite Hmsg. cbn.
  rewrite (keep_non_system_dicts kept (filter_dicts _ Hd)). cbn.
  unfold kept at 1. rewrite filter_again. fold kept.
  by rewrite (insert_id _ _ _ Hmsg).
Qed.

End RewriteLaws.

(** X1: when a restricted body holds [max_tokens], its value becomes the
    [max_completion_tokens] of the result, whatever budget the body held
    under that name, and [max_tokens] is gone. *)
Theorem max_tokens_takes_precedence (b : gmap string json) (v out : json) :
  restricted b = true →
  b !! "max_tokens" = Some v →
  rewrite_body (JObj b) = Ok out →
  ∃ b' : gmap string json,
    out = JObj b'
    ∧ b' !! "max_completion_tokens" = Some v
    ∧ b' !! "max_tokens" = None.
Proof.
  intros Hr Hv H.
  apply rewrite_restricted_inv in H as (items & _ & _ & ->); [|done].
  eexists. split; [reflexivity|].
  rewrite !rewritten_lookup, Hv. done.
Qed.

Lemma max_tokens_takes_precedence_witness :
  restricted Double.both_budgets = true
  ∧ Double.both_budgets !! "max_tokens" = Some (JInt 500)
  ∧ rewrite_body (JObj Double.both_budgets)
    = Ok (JObj {[ "model" := JStr "o1-mini";
                  "max_completion_tokens" := JInt 500;
                  "messages" := JArr [] ]})
  ∧ (∃ b' : gmap string json,
       JObj {[ "model" := JStr "o1-mini";
               "max_completion_tokens" := JInt 500;
               "messages" := JArr [] ]} = JObj b'
       ∧ b' !! "max_completion_tokens" = Some (JInt 500)
       ∧ b' !! "max_tokens" = None).
Proof.
  assert (restricted Double.both_budgets = true) as Hr
    by (vm_compute; reflexivity).
  assert (Double.both_budgets !! "max_tokens" = Some (JInt 500)) as Hv
    by (vm_compute; reflexivity).
  assert (rewrite_body (JObj Double.both_budgets)
          = Ok (JObj {[ "model" := JStr "o1-mini";
                        "max_completion_tokens" := JInt 500;
                        "messages" := JArr [] ]})) as Hw
    by (vm_compute; reflexivity).
  repeat (split; [assumption|]).
  exact (max_tokens_takes_precedence _ _ _ Hr Hv Hw).
Defined.

(** X2: on a restricted body without [max_tokens] the rewrite is
    idempotent: rewriting its result returns that result. *)
Theorem rewrite_idempotent_without_max_tokens (b : gmap string json)
    (out : json) :
  restricted b = true →
  b !! "max_tokens" = None →
  rewrite_body (JObj b) = Ok out →
  rewrite_body out = Ok out.
Proof.
  intros Hr Hn H. pose proof H as Hinv.
  apply rewrite_restricted_inv in Hinv as (items & _ & _ & ->); [|done].
  rewrite (rewrite_again _ _ Hr H). do 2 f_equal.
  apply insert_id. by rewrite rewritten_lookup, Hn.
Qed.

Lemma rewrite_idempotent_without_max_tokens_witness :
  restricted Sample.budgeted = true
  ∧ Sample.budgeted !! "max_tokens" = None
  ∧ rewrite_body (JObj Sample.budgeted)
    = Ok (JObj {[ "model" := JStr "o1-mini";
                  "max_completion_tokens" := JInt 25000;
                  "messages" := JArr [] ]})
  ∧ rewrite_body (JObj {[ "model" := JStr "o1-mini";
                          "max_completion_tokens" := JInt 25000;
                          "messages" := JArr [] ]})
    = Ok (JObj {[ "model" := JStr "o1-mini";
                  "max_completion_tokens" := JInt 25000;
                  "messages" := JArr [] ]}).
Proof.
  assert (restricted Sample.budgeted = true) as Hr
    by (vm_compute; reflexivity).
  assert (Sample.budgeted !! "max_tokens" = None) as Hn
    by (vm_compute; reflexivity).
  assert (rewrite_body (JObj Sample.budgeted)
          = Ok (JObj {[ "model" := JStr "o1-mini";
                        "max_completion_tokens" := JInt 25000;
                        "messages" := JArr [] ]})) as Hw
    by (vm_compute; reflexivity).
  repeat (split; [assumption|]).
  exact (rewrite_idempotent_without_max_tokens _ _ Hr Hn Hw).
Defined.

(** X3: a second pass over the result of a restricted rewrite returns, and
    differs from the first result only in [max_completion_tokens], which it
    sets to 25000; from then on the body is a fixed point of the rewrite. *)
Theorem rewrite_stable_from_second_pass (b : gmap string json) (out : json) :
  restricted b = true →
  rewrite_body (JObj b) = Ok out →
  ∃ once twice : gmap string json,
    out = JObj once
    ∧ rewrite_body (JObj once) = Ok (JObj twice)
    ∧ twice = <["max_completion_tokens" := JInt 25000]> once
    ∧ rewrite_body (JObj twice) = Ok (JObj twice).
Proof.
  intros Hr H. pose proof H as Hinv.
  apply rewrite_restricted_inv in Hinv as (items & _ & _ & ->); [|done].
  eexists _, _. split; [reflexivity|].
  pose proof (rewrite_again _ _ Hr H) as H2.
  split; [exact H2|]. split; [reflexivity|].
  rewrite (rewrite_again _ _ (eq_trans (rewritten_restricted _ _) Hr) H2).
  by rewrite insert_insert_eq.
Qed.

Lemma rewrite_stable_from_second_pass_witness :
  restricted Sample.capped = true
  ∧ rewrite_body (JObj Sample.capped)
    = Ok (JObj {[ "model" := JStr "o1-mini";
                  "max_completion_tokens" := JInt 500;
                  "messages" := JArr [] ]})
  ∧ (∃ once twice : gmap string json,
       JObj {[ "model" := JStr "o1-mini";
               "max_completion_tokens" := JInt 500;
               "messages" := JArr [] ]} = JObj once
       ∧ rewrite_body (JObj once) = Ok (JObj twice)
       ∧ twice = <["max_completion_tokens" := JInt 25000]> once
       ∧ rewrite_body (JObj twice) = Ok (JObj twice)).
Proof.
  assert (restricted Sample.capped = true) as Hr by (vm_compute; reflexivity).
  assert (rewrite_body (JObj Sample.capped)
          = Ok (JObj {[ "model" := JStr "o1-mini";
                        "max_completion_tokens" := JInt 500;
                        "messages" := JArr [] ]})) as Hw
    by (vm_compute; reflexivity).
  repeat (split; [assumption|]).
  exact (rewrite_stable_from_second_pass _ _ Hr Hw).
Defined.

(** X4: a restricted body whose [messages] are a list of objects, none of
    them a system message, is rewritten with its [messages] as they are. *)
Theorem messages_kept_without_system (b : gmap string json)
    (items : list json) :
  restricted b = true →
  b !! "messages" = Some (JArr items) →
  Forall (λ msg, is_dict msg = true ∧ is_system msg = false) items →
  ∃ b' : gmap string json,
    rewrite_body (JObj b) = Ok (JObj b')
    ∧ b' !! "messages" = Some (JArr items).
Proof.
  intros Hr Hm Hall.
  assert (Forall (λ msg, is_dict msg = true) items) as Hd
    by (eapply Forall_impl; [exact Hall | by intros ? [? ?]]).
  assert (filter (λ msg, is_system msg = false) items = items) as Hf.
  { clear Hm Hd. induction Hall as [|msg items [_ Hs] _ IH]; [done|].
    by rewrite filter_cons, decide_True, IH by done. }
  assert (∃ out, rewrite_body (JObj b) = Ok out) as [out Hout].
  { apply rewrite_returns_iff; [done|]. exists items.
    unfold messages_of. rewrite Hm. done. }
  pose proof Hout as Hinv.
  apply rewrite_restricted_inv in Hinv as (items' & Hi & _ & ->); [|done].
  unfold messages_of in Hi. rewrite Hm in Hi. injection Hi as <-.
  eexists. split; [exact Hout|]. by rewrite lookup_insert_eq, Hf.
Qed.

Lemma messages_kept_without_system_witness :
  restricted Double.no_system = true
  ∧ Double.no_system !! "messages"
    = Some (JArr [Sample.user_y; JObj {[ "content" := JStr "z" ]}])
  ∧ Forall (λ msg, is_dict msg = true ∧ is_system msg = false)
           [Sample.user_y; JObj {[ "content" := JStr "z" ]}]
  ∧ (∃ b' : gmap string json,
       rewrite_body (JObj Double.no_system) = Ok (JObj b')
       ∧ b' !! "messages"
         = Some (JArr [Sample.user_y; JObj {[ "content" := JStr "z" ]}])).
Proof.
  assert (restricted Double.no_system = true) as Hr
    by (vm_compute; reflexivity).
  assert (Double.no_system !! "messages"
          = Some (JArr [Sample.user_y; JObj {[ "content" := JStr "z" ]}]))
    as Hm by (vm_compute; reflexivity).
  assert (Forall (λ msg, is_dict msg = true ∧ is_system msg = false)
                 [Sample.user_y; JObj {[ "content" := JStr "z" ]}]) as Hall
    by (repeat constructor).
  repeat (split; [assumption|]).
  exact (messages_kept_without_system _ _ Hr Hm Hall).
Defined.

(** X5: the keys of a rewritten restricted body are the keys of the
    request without the unsupported parameters and [max_tokens], together
    with [max_completion_tokens] and [messages]. *)
Theorem rewritten_keys (b : gmap string json) (out : json) :
  restricted b = true →
  rewrite_body (JObj b) = Ok out →
  ∃ b' : gmap string json,
    out = JObj b'
    ∧ ∀ k, is_Some (b' !! k)
           ↔ k = "max_completion_tokens" ∨ k = "messages"
             ∨ (is_Some (b !! k) ∧ k ≠ "max_tokens"
                ∧ k ∉ UNSUPPORTED_PARAMETERS).
Proof.
  intros Hr H.
  apply rewrite_restricted_inv in H as (items & _ & _ & ->); [|done].
  eexists. split; [reflexivity|]. intros k. rewrite rewritten_lookup.
  repeat case_decide; subst.
  - split; [by auto | by eauto].
  - split; [by auto | by eauto].
  - split; [by intros [? [=]] | by intros [?|[?|(_ & ? & _)]]].
  - split; [by intros [? [=]] | by intros [?|[?|(_ & _ & ?)]]].
  - split; [by auto | by intros [?|[?|(? & _)]]].
Qed.

Lemma rewritten_keys_witness :
  restricted Sample.chat = true
  ∧ rewrite_body (JObj Sample.chat) = Ok (JObj Sample.chat_rewritten)
  ∧ (∃ b' : gmap string json,
       JObj Sample.chat_rewritten = JObj b'
       ∧ ∀ k, is_Some (b' !! k)
              ↔ k = "max_completion_tokens" ∨ k = "messages"
                ∨ (is_Some (Sample.chat !! k) ∧ k ≠ "max_tokens"
                   ∧ k ∉ UNSUPPORTED_PARAMETERS)).
Proof.
  assert (restricted Sample.chat = true) as Hr by (vm_compute; reflexivity).
  assert (rewrite_body (JObj Sample.chat) = Ok (JObj Sample.chat_rewritten))
    as Hw by (vm_compute; reflexivity).
  repeat (split; [assumption|]).
  exact (rewritten_keys _ _ Hr Hw).
Defined.

(** ** Further properties of the key extraction *)

Section SplitLaws.

Implicit Types (sep s t u piece key : string) (pieces : list string).

Lemma append_assoc s t u : (s +:+ t) +:+ u = s +:+ (t +:+ u).
Proof.
  induction s as [|c s IH]; [done|].
  change (String c ((s +:+ t) +:+ u) = String c (s +:+ (t +:+ u))).
  by rewrite IH.
Qed.

Lemma length_append s t :
  String.length (s +:+ t) = String.length s + String.length t.
Proof.
  induction s as [|c s IH]; [done|].
  change (S (String.length (s +:+ t)) = S (String.length s + String.length t)).
  by rewrite IH.
Qed.

Lemma prefix_extend sep u t :
  String.prefix sep u = true → String.prefix sep (u +:+ t) = true.
Proof.
  intros [w ->]%prefix_inv. rewrite append_assoc. apply prefix_app.
Qed.

(** The first piece is the text up to the first separator. *)
Lemma first_piece_prefix sep s piece pieces :
  split_from sep 0 s = piece :: pieces → ∃ t, s = piece +:+ t.
Proof.
  revert piece pieces. induction s as [|c s IH]; intros piece pieces.
  - intros [= <- <-]. by exists "".
  - cbn [split_from]. destruct (String.prefix sep (String c s)).
    + intros [= <- <-]. by exists (String c s).
    + destruct (split_from_cons sep 0 s) as (p & ps & E). rewrite E.
      intros [= <- <-]. destruct (IH _ _ E) as [t ->]. by exists t.
Qed.

(** No piece of a split holds the separator. *)
Lemma split_from_pieces_clean (c0 : Ascii.ascii) sep s (skip : nat) :
  Forall (λ piece, occurs (String c0 sep) piece = false)
         (split_from (String c0 sep) skip s).
Proof.
  revert skip. induction s as [|c s IH]; intros skip.
  - by repeat constructor.
  - cbn [split_from]. destruct skip as [|skip]; [|apply IH].
    destruct (String.prefix (String c0 sep) (String c s)) eqn:Hp.
    + constructor; [done | apply IH].
    + destruct (split_from_cons (String c0 sep) 0 s) as (p & ps & E).
      pose proof (IH 0) as Hall. rewrite E in Hall |- *.
      apply Forall_cons in Hall as [Hp0 Hps].
      constructor; [|done].
      cbn [occurs]. rewrite Hp0, orb_false_r.
      destruct (String.prefix (String c0 sep) (String c p)) eqn:Hcp; [|done].
      destruct (first_piece_prefix _ _ _ _ E) as [t ->].
      apply (prefix_extend _ _ t) in Hcp. simpl in Hcp, Hp. congruence.
Qed.

Lemma join_cons_char sep (c : Ascii.ascii) piece pieces :
  join sep (String c piece :: pieces) = String c (join sep (piece :: pieces)).
Proof. by destruct pieces. Qed.

(** Joining the pieces with the separator gives the text back. *)
Lemma join_split_from (c0 : Ascii.ascii) sep (n : nat) s :
  (String.length s ≤ n)%nat →
  join (String c0 sep) (split_from (String c0 sep) 0 s) = s.
Proof.
  revert s. induction n as [|n IH]; intros s Hn.
  { destruct s; [done | simpl in Hn; lia]. }
  destruct s as [|c s]; [done|].
  destruct (String.prefix (String c0 sep) (String c s)) eqn:Hp.
  - apply prefix_inv in Hp as [t E]. rewrite E, split_from_at_sep.
    destruct (split_from_cons (String c0 sep) 0 t) as (p & ps & Et).
    assert (join (String c0 sep) (split_from (String c0 sep) 0 t) = t) as Ht.
    { apply IH. apply (f_equal String.length) in E.
      rewrite length_append in E. simpl in E, Hn. lia. }
    rewrite Et in Ht |- *.
    change (join (String c0 sep) ("" :: p :: ps))
      with ("" +:+ String c0 sep +:+ join (String c0 sep) (p :: ps)).
    by rewrite Ht.
  - cbn [split_from]. rewrite Hp.
    destruct (split_from_cons (String c0 sep) 0 s) as (p & ps & Es).
    rewrite Es, join_cons_char, <- Es. f_equal. apply IH. simpl in Hn. lia.
Qed.

Lemma join_last sep pieces key :
  last pieces = Some key →
  join sep pieces = key ∨ ∃ pre, join sep pieces = pre +:+ sep +:+ key.
Proof.
  induction pieces as [|p [|q ps] IH]; [done| |].
  - intros [= ->]. by left.
  - rewrite last_cons_cons. intros H. right.
    change (join sep (p :: q :: ps)) with (p +:+ sep +:+ join sep (q :: ps)).
    destruct (IH H) as [->|[pre ->]]; [by exists p|].
    exists (p +:+ sep +:+ pre). by rewrite !append_assoc.
Qed.

(** The key of an accepted header, by the pieces of the token. *)
Lemma api_key_of_token tok key :
  api_key ("Bearer " +:+ tok) = Ok key →
  last (split_from "Bearer " 0 tok) = Some key.
Proof.
  unfold api_key, split. rewrite split_from_at_sep. cbn.
  unfold index_last.
  destruct (split_from_cons "Bearer " 0 tok) as (p & ps & ->).
  rewrite last_cons_cons.
  destruct (last (p :: ps)); [by intros [= ->] | done].
Qed.

End SplitLaws.

(** X14: the key taken from any header never holds the text ["Bearer "]. *)
Theorem api_key_holds_no_bearer (authorization key : string) :
  api_key authorization = Ok key → occurs "Bearer " key = false.
Proof.
  unfold api_key, split. cbn. unfold index_last.
  destruct (last _) as [k|] eqn:E; [|done]. intros [= <-].
  apply last_Some in E as [l E].
  assert (Forall (λ piece, occurs "Bearer " piece = false)
                 (split_from "Bearer " 0 authorization)) as H
    by apply split_from_pieces_clean.
  rewrite E in H. apply Forall_app in H as [_ H].
  by apply Forall_cons in H as [H _].
Qed.

Lemma api_key_holds_no_bearer_witness :
  api_key "Bearer a Bearer b" = Ok "b" ∧ occurs "Bearer " "b" = false.
Proof.
  assert (api_key "Bearer a Bearer b" = Ok "b") as H by reflexivity.
  split; [exact H|]. exact (api_key_holds_no_bearer _ _ H).
Defined.

(** X15: for a header that starts with ["Bearer "], the credential sent
    upstream, ["Bearer "] followed by the key, is an end of the header. *)
Theorem api_key_is_end_of_header (tok key : string) :
  api_key ("Bearer " +:+ tok) = Ok key →
  ∃ pre, "Bearer " +:+ tok = pre +:+ "Bearer " +:+ key.
Proof.
  intros H%api_key_of_token.
  assert (join "Bearer " (split_from "Bearer " 0 tok) = tok) as Hj
    by apply (join_split_from _ _ _ _ (le_n _)).
  destruct (join_last "Bearer " _ _ H) as [E|[pre E]]; rewrite E in Hj.
  - exists "". by rewrite <- Hj.
  - exists ("Bearer " +:+ pre). by rewrite <- Hj, !append_assoc.
Qed.

Lemma api_key_is_end_of_header_witness :
  api_key ("Bearer " +:+ "a Bearer b") = Ok "b"
  ∧ (∃ pre, "Bearer " +:+ "a Bearer b" = pre +:+ "Bearer " +:+ "b").
Proof.
  assert (api_key ("Bearer " +:+ "a Bearer b") = Ok "b") as H by reflexivity.
  split; [exact H|]. exact (api_key_is_end_of_header _ _ H).
Defined.

(** ** Further properties of the handlers *)

Section HandlerLaws.

Variable json_loads : string → result json.
Variable requests_post : string → headers → json → result Response.
Variable requests_get : string → headers → result Response.

Lemma require_bearer_cases (authorization : option string) :
  require_bearer authorization
  = finish (RaiseHTTPException 401
              "Authorization header with Bearer token is required")
  ∨ ∃ tok, authorization = Some ("Bearer " +:+ tok).
Proof.
  destruct authorization as [a|]; [|by left].
  destruct (startswith a "Bearer ") eqn:E.
  - right. apply prefix_inv in E as [tok ->]. eauto.
  - left. unfold require_bearer. by rewrite E, orb_true_r.
Qed.

(** Every run of [proxy_post], by the point where it ends. *)
Lemma post_run_cases (path request : string) (authorization : option string) :
  let url := OPENAI_API_BASE +:+ "/v1/" +:+ path in
  let run := proxy_post json_loads requests_post path request authorization in
  run = ([], RaiseHTTPException 401
               "Authorization header with Bearer token is required")
  ∨ ∃ tok key,
      authorization = Some ("Bearer " +:+ tok)
      ∧ api_key ("Bearer " +:+ tok) = Ok key
      ∧ ((∃ e, json_loads request = Raise e ∧ run.1 = [AwaitRequestJson])
         ∨ (∃ parsed e,
              json_loads request = Ok parsed
              ∧ rewrite_body parsed = Raise e
              ∧ run = ([AwaitRequestJson], Uncaught e))
         ∨ (∃ parsed body,
              json_loads request = Ok parsed
              ∧ rewrite_body parsed = Ok body
              ∧ run.1 = [AwaitRequestJson;
                         RequestsPost url
                           [("Authorization", "Bearer " +:+ key);
                            ("Content-Type", "application/json")]
                           body])).
Proof.
  intros url run. subst run.
  destruct (require_bearer_cases authorization) as [E|[tok ->]].
  { left. unfold proxy_post. by rewrite E. }
  right. destruct (api_key_total ("Bearer " +:+ tok)) as [key Hk].
  exists tok, key. split; [done|]. split; [done|].
  rewrite (proxy_post_accepted _ _ _ _ _ _ (require_bearer_accept tok) Hk).
  destruct (json_loads request) as [parsed|e].
  - right. destruct (rewrite_body parsed) as [body|e] eqn:Hw.
    + right. by exists parsed, body.
    + left. by exists parsed, e.
  - left. exists e. split; [done|]. by destruct e.
Qed.

(** X6: a run of [proxy_post] reads the body at most once and calls the
    upstream at most once, after the body; the call goes to the fixed base
    with the path of the request, carries the bearer key and the JSON
    content type, and its body is the rewrite of the parsed body. *)
Theorem post_trace_shape (path request : string)
    (authorization : option string) :
  let t := (proxy_post json_loads requests_post path request authorization).1 in
  t = [] ∨ t = [AwaitRequestJson]
  ∨ ∃ auth key parsed body,
      authorization = Some auth
      ∧ api_key auth = Ok key
      ∧ json_loads request = Ok parsed
      ∧ rewrite_body parsed = Ok body
      ∧ t = [AwaitRequestJson;
             RequestsPost (OPENAI_API_BASE +:+ "/v1/" +:+ path)
               [("Authorization", "Bearer " +:+ key);
                ("Content-Type", "application/json")]
               body].
Proof.
  intros t. subst t.
  destruct (post_run_cases path request authorization)
    as [->|(tok & key & -> & Hk & [(e & _ & ->)|[(p & e & _ & _ & ->)
                                  |(p & body & Hp & Hw & ->)]])].
  - by left.
  - by right; left.
  - by right; left.
  - right; right. by exists ("Bearer " +:+ tok), key, p, body.
Qed.

(** X7: a run of [proxy_get] never reads a body; it makes no upstream call
    or exactly one, to the fixed base with the path of the request and
    with the bearer key as its only header. *)
Theorem get_trace_shape (path : string) (authorization : option string) :
  let t := (proxy_get requests_get path authorization).1 in
  t = []
  ∨ ∃ auth key,
      authorization = Some auth
      ∧ api_key auth = Ok key
      ∧ t = [RequestsGet (OPENAI_API_BASE +:+ "/v1/" +:+ path)
                         [("Authorization", "Bearer " +:+ key)]].
Proof.
  intros t. subst t.
  destruct (require_bearer_cases authorization) as [E|[tok ->]].
  { left. unfold proxy_get. by rewrite E. }
  right. destruct (api_key_total ("Bearer " +:+ tok)) as [key Hk].
  exists ("Bearer " +:+ tok), key. split; [done|]. split; [done|].
  by rewrite (proxy_get_accepted _ _ _ _ (require_bearer_accept tok) Hk).
Qed.

Lemma rewritten_clean (b : gmap string json) (items : list json) :
  clean (<["messages" := JArr (filter (λ msg, is_system msg = false) items)]>
           (max_tokens_step (pop_unsupported b))).
Proof.
  unfold clean. split; [|split; [|split]].
  - intros p Hp. rewrite rewritten_lookup.
    assert (p ≠ "messages") by (intros ->; revert Hp; by_compute).
    assert (p ≠ "max_tokens") by (intros ->; revert Hp; by_compute).
    assert (p ≠ "max_completion_tokens") by (intros ->; revert Hp; by_compute).
    by rewrite !decide_False, decide_True by done.
  - by rewrite rewritten_lookup.
  - rewrite rewritten_lookup. cbn. eauto.
  - eexists. split; [by rewrite rewritten_lookup|].
    apply list.Forall_forall. intros msg Hm.
    by apply list_elem_of_filter in Hm as [? _].
Qed.

(** X8: whatever the request, a body that [proxy_post] hands to the
    upstream for a restricted model is clean: no unsupported parameter, no
    [max_tokens], a [max_completion_tokens], and no system message. *)
Theorem upstream_post_is_clean (path request : string)
    (authorization : option string) (url : string) (hdrs : headers)
    (b' : gmap string json) :
  RequestsPost url hdrs (JObj b')
    ∈ (proxy_post json_loads requests_post path request authorization).1 →
  restricted b' = true →
  clean b'.
Proof.
  intros Hin Hr.
  destruct (post_run_cases path request authorization)
    as [E|(tok & key & _ & _ & [(e & _ & E)|[(p & e & _ & _ & E)
                                  |(p & body & _ & Hw & E)]])];
    rewrite E in Hin.
  - by apply elem_of_nil in Hin.
  - by apply list_elem_of_singleton in Hin.
  - by apply list_elem_of_singleton in Hin.
  - apply elem_of_cons in Hin as [?|Hin]; [done|].
    apply list_elem_of_singleton in Hin as [= _ _ <-].
    destruct p as [| | | | | |b]; try done.
    destruct (restricted b) eqn:Hb.
    + apply rewrite_restricted_inv in Hw as (items & _ & _ & [= ->]); [|done].
      apply rewritten_clean.
    + unfold rewrite_body in Hw. rewrite Hb in Hw. injection Hw as <-.
      congruence.
Qed.

End HandlerLaws.

Lemma upstream_post_is_clean_witness :
  RequestsPost "https://api.openai.com/v1/chat/completions"
    [("Authorization", "Bearer sk-abc"); ("Content-Type", "application/json")]
    (JObj Sample.chat_rewritten)
    ∈ (proxy_post Double.json_loads Double.requests_post "chat/completions"
                  "chat" (Some "Bearer sk-abc")).1
  ∧ restricted Sample.chat_rewritten = true
  ∧ clean Sample.chat_rewritten.
Proof.
  assert (RequestsPost "https://api.openai.com/v1/chat/completions"
            [("Authorization", "Bearer sk-abc");
             ("Content-Type", "application/json")]
            (JObj Sample.chat_rewritten)
          ∈ (proxy_post Double.json_loads Double.requests_post
                        "chat/completions" "chat" (Some "Bearer sk-abc")).1)
    as Hin.
  { replace (proxy_post Double.json_loads Double.requests_post
               "chat/completions" "chat" (Some "Bearer sk-abc")).1
      with [AwaitRequestJson;
            RequestsPost "https://api.openai.com/v1/chat/completions"
              [("Authorization", "Bearer sk-abc");
               ("Content-Type", "application/json")]
              (JObj Sample.chat_rewritten)]
      by (vm_compute; reflexivity).
    right. left. }
  assert (restricted Sample.chat_rewritten = true) as Hr
    by (vm_compute; reflexivity).
  split; [exact Hin|]. split; [exact Hr|].
  exact (upstream_post_is_clean _ _ _ _ _ _ _ _ Hin Hr).
Defined.

Section HandlerOutcomes.

Variable json_loads : string → result json.
Variable requests_post : string → headers → json → result Response.
Variable requests_get : string → headers → result Response.

(** X9: when the upstream answers a POST, the handler returns a streaming
    response with the status code of the upstream and the chunks of
    [iter_content(8192)]; the caller receives that status and those
    chunks. *)
Theorem post_relays_upstream_answer (path request tok key : string)
    (parsed body : json) (response : Response) :
  api_key ("Bearer " +:+ tok) = Ok key →
  json_loads request = Ok parsed →
  rewrite_body parsed = Ok body →
  requests_post (OPENAI_API_BASE +:+ "/v1/" +:+ path)
    [("Authorization", "Bearer " +:+ key);
     ("Content-Type", "application/json")] body = Ok response →
  (proxy_post json_loads requests_post path request
              (Some ("Bearer " +:+ tok))).2
    = ReturnStreamingResponse (iter_content response 8192)
                              (status_code response)
  ∧ respond (proxy_post json_loads requests_post path request
                        (Some ("Bearer " +:+ tok))).2
    = ReplyStream (status_code response) (iter_content response 8192).
Proof.
  intros Hk Hj Hw Hu.
  rewrite (proxy_post_accepted _ _ _ _ _ _ (require_bearer_accept tok) Hk).
  by rewrite Hj, Hw, Hu.
Qed.

(** X10: when the upstream answers a GET, the handler returns a streaming
    response with the status code of the upstream and the chunks of
    [iter_content(8192)], after one upstream call and no other action. *)
Theorem get_relays_upstream_answer (path tok key : string)
    (response : Response) :
  api_key ("Bearer " +:+ tok) = Ok key →
  requests_get (OPENAI_API_BASE +:+ "/v1/" +:+ path)
    [("Authorization", "Bearer " +:+ key)] = Ok response →
  proxy_get requests_get path (Some ("Bearer " +:+ tok))
  = ([RequestsGet (OPENAI_API_BASE +:+ "/v1/" +:+ path)
                  [("Authorization", "Bearer " +:+ key)]],
     ReturnStreamingResponse (iter_content response 8192)
                             (status_code response)).
Proof.
  intros Hk Hu.
  rewrite (proxy_get_accepted _ _ _ _ (require_bearer_accept tok) Hk).
  by rewrite Hu.
Qed.

(** X11: an exception of the upstream call is not caught and not retried:
    the handler ends with that exception after its single call, for POST
    and for GET. *)
Theorem upstream_failure_not_caught (path request tok key : string)
    (parsed body : json) (e : exn) :
  api_key ("Bearer " +:+ tok) = Ok key →
  json_loads request = Ok parsed →
  rewrite_body parsed = Ok body →
  (∀ url hdrs body, requests_post url hdrs body = Raise e) →
  (∀ url hdrs, requests_get url hdrs = Raise e) →
  proxy_post json_loads requests_post path request
             (Some ("Bearer " +:+ tok))
  = ([AwaitRequestJson;
      RequestsPost (OPENAI_API_BASE +:+ "/v1/" +:+ path)
        [("Authorization", "Bearer " +:+ key);
         ("Content-Type", "application/json")] body],
     Uncaught e)
  ∧ proxy_get requests_get path (Some ("Bearer " +:+ tok))
    = ([RequestsGet (OPENAI_API_BASE +:+ "/v1/" +:+ path)
                    [("Authorization", "Bearer " +:+ key)]],
       Uncaught e).
Proof.
  intros Hk Hj Hw Hp Hg.
  rewrite (proxy_post_accepted _ _ _ _ _ _ (require_bearer_accept tok) Hk).
  rewrite (proxy_get_accepted _ _ _ _ (require_bearer_accept tok) Hk).
  by rewrite Hj, Hw, Hp, Hg.
Qed.

(** X12: an exception of the rewrite is not caught: the handler ends with
    it after reading the body, and the upstream is not called.  A parsed
    body that is not an object is such a case. *)
Theorem rewrite_failure_not_caught (path request tok : string)
    (parsed : json) (e : exn) :
  json_loads request = Ok parsed →
  rewrite_body parsed = Raise e →
  proxy_post json_loads requests_post path request
             (Some ("Bearer " +:+ tok))
  = ([AwaitRequestJson], Uncaught e)
  ∧ (is_dict parsed = false → e = AttributeError).
Proof.
  intros Hj Hw.
  destruct (api_key_total ("Bearer " +:+ tok)) as [key Hk].
  rewrite (proxy_post_accepted _ _ _ _ _ _ (require_bearer_accept tok) Hk).
  rewrite Hj, Hw. split; [done|].
  intros Hd. destruct parsed; try discriminate; by injection Hw.
Qed.

(** X13: only [JSONDecodeError] is answered with 400: any other exception
    of [request.json()] ends the handler uncaught, after reading the body
    and without an upstream call. *)
Theorem parser_exception_not_caught (path request tok : string) (e : exn) :
  json_loads request = Raise e →
  e ≠ JSONDecodeError →
  proxy_post json_loads requests_post path request
             (Some ("Bearer " +:+ tok))
  = ([AwaitRequestJson], Uncaught e).
Proof.
  intros Hj He.
  destruct (api_key_total ("Bearer " +:+ tok)) as [key Hk].
  rewrite (proxy_post_accepted _ _ _ _ _ _ (require_bearer_accept tok) Hk).
  rewrite Hj. by destruct e.
Qed.

(** X16: a token in which ["Bearer "] does not occur is forwarded as it
    came: the GET call carries the inbound header, and so does every
    upstream call of a POST run. *)
Theorem plain_token_forwarded (path request tok : string) :
  occurs "Bearer " tok = false →
  (proxy_get requests_get path (Some ("Bearer " +:+ tok))).1
  = [RequestsGet (OPENAI_API_BASE +:+ "/v1/" +:+ path)
                 [("Authorization", "Bearer " +:+ tok)]]
  ∧ Forall (λ e, contacts_upstream e = true
                 → sent_authorization e = Some ("Bearer " +:+ tok))
      (proxy_post json_loads requests_post path request
                  (Some ("Bearer " +:+ tok))).1.
Proof.
  intros Ho. pose proof (api_key_plain_token tok Ho) as Hk.
  rewrite (proxy_get_accepted _ _ _ _ (require_bearer_accept tok) Hk).
  rewrite (proxy_post_accepted _ _ _ _ _ _ (require_bearer_accept tok) Hk).
  split; [done|].
  destruct (json_loads request) as [parsed|e].
  - destruct (rewrite_body parsed); by repeat constructor.
  - destruct e; by repeat constructor.
Qed.

End HandlerOutcomes.

Lemma post_relays_upstream_answer_witness :
  api_key ("Bearer " +:+ "sk-abc") = Ok "sk-abc"
  ∧ Double.json_loads "chat" = Ok (JObj Sample.chat)
  ∧ rewrite_body (JObj Sample.chat) = Ok (JObj Sample.chat_rewritten)
  ∧ Double.requests_post (OPENAI_API_BASE +:+ "/v1/" +:+ "chat/completions")
      [("Authorization", "Bearer " +:+ "sk-abc");
       ("Content-Type", "application/json")]
      (JObj Sample.chat_rewritten) = Ok Double.limited
  ∧ (proxy_post Double.json_loads Double.requests_post "chat/completions"
                "chat" (Some ("Bearer " +:+ "sk-abc"))).2
    = ReturnStreamingResponse (iter_content Double.limited 8192)
                              (status_code Double.limited)
  ∧ respond (proxy_post Double.json_loads Double.requests_post
                        "chat/completions" "chat"
                        (Some ("Bearer " +:+ "sk-abc"))).2
    = ReplyStream (status_code Double.limited)
                  (iter_content Double.limited 8192).
Proof.
  assert (api_key ("Bearer " +:+ "sk-abc") = Ok "sk-abc") as Hk
    by reflexivity.
  assert (Double.json_loads "chat" = Ok (JObj Sample.chat)) as Hj
    by reflexivity.
  assert (rewrite_body (JObj Sample.chat) = Ok (JObj Sample.chat_rewritten))
    as Hw by (vm_compute; reflexivity).
  assert (Double.requests_post
            (OPENAI_API_BASE +:+ "/v1/" +:+ "chat/completions")
            [("Authorization", "Bearer " +:+ "sk-abc");
             ("Content-Type", "application/json")]
            (JObj Sample.chat_rewritten) = Ok Double.limited) as Hu
    by reflexivity.
  repeat (split; [assumption|]).
  exact (post_relays_upstream_answer Double.json_loads Double.requests_post
           "chat/completions" "chat" "sk-abc" "sk-abc" _ _ _ Hk Hj Hw Hu).
Defined.

Lemma get_relays_upstream_answer_witness :
  api_key ("Bearer " +:+ "sk-abc") = Ok "sk-abc"
  ∧ Double.requests_get (OPENAI_API_BASE +:+ "/v1/" +:+ "models")
      [("Authorization", "Bearer " +:+ "sk-abc")] = Ok Double.limited
  ∧ proxy_get Double.requests_get "models" (Some ("Bearer " +:+ "sk-abc"))
    = ([RequestsGet (OPENAI_API_BASE +:+ "/v1/" +:+ "models")
                    [("Authorization", "Bearer " +:+ "sk-abc")]],
       ReturnStreamingResponse (iter_content Double.limited 8192)
                               (status_code Double.limited)).
Proof.
  assert (api_key ("Bearer " +:+ "sk-abc") = Ok "sk-abc") as Hk
    by reflexivity.
  assert (Double.requests_get (OPENAI_API_BASE +:+ "/v1/" +:+ "models")
            [("Authorization", "Bearer " +:+ "sk-abc")] = Ok Double.limited)
    as Hu by reflexivity.
  repeat (split; [assumption|]).
  exact (get_relays_upstream_answer Double.requests_get "models" "sk-abc"
           "sk-abc" _ Hk Hu).
Defined.

Lemma upstream_failure_not_caught_witness :
  api_key ("Bearer " +:+ "sk-abc") = Ok "sk-abc"
  ∧ Double.json_loads "chat" = Ok (JObj Sample.chat)
  ∧ rewrite_body (JObj Sample.chat) = Ok (JObj Sample.chat_rewritten)
  ∧ (∀ url hdrs body, Double.down_post url hdrs body = Raise ConnectionError)
  ∧ (∀ url hdrs, Double.down_get url hdrs = Raise ConnectionError)
  ∧ proxy_post Double.json_loads Double.down_post "chat/completions" "chat"
               (Some ("Bearer " +:+ "sk-abc"))
    = ([AwaitRequestJson;
        RequestsPost (OPENAI_API_BASE +:+ "/v1/" +:+ "chat/completions")
          [("Authorization", "Bearer " +:+ "sk-abc");
           ("Content-Type", "application/json")]
          (JObj Sample.chat_rewritten)],
       Uncaught ConnectionError)
  ∧ proxy_get Double.down_get "chat/completions"
              (Some ("Bearer " +:+ "sk-abc"))
    = ([RequestsGet (OPENAI_API_BASE +:+ "/v1/" +:+ "chat/completions")
                    [("Authorization", "Bearer " +:+ "sk-abc")]],
       Uncaught ConnectionError).
Proof.
  assert (api_key ("Bearer " +:+ "sk-abc") = Ok "sk-abc") as Hk
    by reflexivity.
  assert (Double.json_loads "chat" = Ok (JObj Sample.chat)) as Hj
    by reflexivity.
  assert (rewrite_body (JObj Sample.chat) = Ok (JObj Sample.chat_rewritten))
    as Hw by (vm_compute; reflexivity).
  assert (∀ url hdrs body,
            Double.down_post url hdrs body = Raise ConnectionError) as Hp
    by reflexivity.
  assert (∀ url hdrs, Double.down_get url hdrs = Raise ConnectionError) as Hg
    by reflexivity.
  repeat (split; [assumption|]).
  exact (upstream_failure_not_caught Double.json_loads Double.down_post
           Double.down_get "chat/completions" "chat" "sk-abc" "sk-abc"
           _ _ _ Hk Hj Hw Hp Hg).
Defined.

Lemma rewrite_failure_not_caught_witness :
  Double.json_loads "list" = Ok (JArr [])
  ∧ rewrite_body (JArr []) = Raise AttributeError
  ∧ proxy_post Double.json_loads Double.requests_post "chat/completions"
               "list" (Some ("Bearer " +:+ "sk-abc"))
    = ([AwaitRequestJson], Uncaught AttributeError)
  ∧ (is_dict (JArr []) = false → AttributeError = AttributeError).
Proof.
  assert (Double.json_loads "list" = Ok (JArr [])) as Hj by reflexivity.
  assert (rewrite_body (JArr []) = Raise AttributeError) as Hw
    by reflexivity.
  repeat (split; [assumption|]).
  exact (rewrite_failure_not_caught Double.json_loads Double.requests_post
           "chat/completions" "list" "sk-abc" _ _ Hj Hw).
Defined.

Lemma parser_exception_not_caught_witness :
  Double.json_loads "latin1" = Raise UnicodeDecodeError
  ∧ UnicodeDecodeError ≠ JSONDecodeError
  ∧ proxy_post Double.json_loads Double.requests_post "chat/completions"
               "latin1" (Some ("Bearer " +:+ "sk-abc"))
    = ([AwaitRequestJson], Uncaught UnicodeDecodeError).
Proof.
  assert (Double.json_loads "latin1" = Raise UnicodeDecodeError) as Hj
    by reflexivity.
  assert (UnicodeDecodeError ≠ JSONDecodeError) as He by discriminate.
  repeat (split; [assumption|]).
  exact (parser_exception_not_caught Double.json_loads Double.requests_post
           "chat/completions" "latin1" "sk-abc" _ Hj He).
Defined.

Lemma plain_token_forwarded_witness :
  occurs "Bearer " "sk-abc" = false
  ∧ (proxy_get Double.requests_get "models"
               (Some ("Bearer " +:+ "sk-abc"))).1
    = [RequestsGet (OPENAI_API_BASE +:+ "/v1/" +:+ "models")
                   [("Authorization", "Bearer " +:+ "sk-abc")]]
  ∧ Forall (λ e, contacts_upstream e = true
                 → sent_authorization e = Some ("Bearer " +:+ "sk-abc"))
      (proxy_post Double.json_loads Double.requests_post "models" "chat"
                  (Some ("Bearer " +:+ "sk-abc"))).1.
Proof.
  assert (occurs "Bearer " "sk-abc" = false) as Ho by reflexivity.
  split; [exact Ho|].
  exact (plain_token_forwarded Double.json_loads Double.requests_post
           Double.requests_get "models" "chat" "sk-abc" Ho).
Defined.

(** ** Properties of the tunnel start-up *)

Section LaunchLaws.

Import Launch.

Variable popen : list string → attempt unit.
Variable requests_get : string → attempt TunnelsResponse.
Variable str_exn : raised → string.

(** A run of [start_ngrok] once the process is started. *)
Lemma start_ngrok_started :
  popen ["ngrok"; "http"; "5000"] = Returns tt →
  start_ngrok popen requests_get str_exn
  = match public_url (requests_get "http://127.0.0.1:4040/api/tunnels") with
    | Returns v =>
        ([Popen ["ngrok"; "http"; "5000"]; Sleep 2;
          Get "http://127.0.0.1:4040/api/tunnels"], Returns v)
    | Raises e =>
        ([Popen ["ngrok"; "http"; "5000"]; Sleep 2;
          Get "http://127.0.0.1:4040/api/tunnels";
          Print ("Error fetching ngrok URL: " +:+ str_exn e)],
         Returns JNull)
    end.
Proof.
  intros Hp. unfold start_ngrok, public_url. rewrite Hp.
  destruct (requests_get _) as [[[parsed|e]]|e]; [|done..].
  cbn -[String.append getitem_str getitem_0].
  destruct (getitem_str parsed "tunnels") as [tunnels|e]; [|done].
  cbn -[String.append getitem_str getitem_0].
  destruct (getitem_0 tunnels) as [tunnel|e]; [|done].
  cbn -[String.append getitem_str].
  by destruct (getitem_str tunnel "public_url").
Qed.

(** The value is the [public_url] of the first tunnel, and nothing else. *)
Lemma public_url_Returns (answer : attempt TunnelsResponse) (v : json) :
  public_url answer = Returns v
  ↔ ∃ r d t rest,
      answer = Returns r
      ∧ json_of r = Returns (JObj d)
      ∧ d !! "tunnels" = Some (JArr (JObj t :: rest))
      ∧ t !! "public_url" = Some v.
Proof.
  split.
  - unfold public_url. destruct answer as [[[parsed|]]|]; [|done..].
    destruct parsed as [| | | | | |d]; try done. cbn.
    destruct (d !! "tunnels") as [tunnels|] eqn:Ht; [|done].
    destruct tunnels as [| | | |s|items|]; try done; cbn.
    { by destruct s. }
    destruct items as [|tunnel rest]; [done|].
    destruct tunnel as [| | | | | |t]; try done. cbn.
    destruct (t !! "public_url") as [x|] eqn:Hu; [|done].
    intros [= ->]. by exists {| json_of := Returns (JObj d) |}, d, t, rest.
  - intros (r & d & t & rest & -> & Hj & Ht & Hu).
    unfold public_url. rewrite Hj. cbn. rewrite Ht. cbn. by rewrite Hu.
Qed.

(** X17: the only exception [start_ngrok] lets through is that of starting
    the ngrok process, and then nothing else was done: no wait, no call of
    the ngrok API, no output. *)
Theorem start_ngrok_raises_only_from_popen (e : raised) :
  ((start_ngrok popen requests_get str_exn).2 = Raises e
   ↔ popen ["ngrok"; "http"; "5000"] = Raises e)
  ∧ ((start_ngrok popen requests_get str_exn).2 = Raises e →
     (start_ngrok popen requests_get str_exn).1
     = [Popen ["ngrok"; "http"; "5000"]]).
Proof.
  destruct (popen ["ngrok"; "http"; "5000"]) as [[]|e'] eqn:Hp.
  - rewrite (start_ngrok_started Hp). by destruct (public_url _).
  - unfold start_ngrok. rewrite Hp. cbn. split; [|done].
    by split; intros [= ->].
Qed.

(** X18: when the ngrok API answers a JSON object whose [tunnels] is a list
    that starts with an object holding [public_url], [start_ngrok] returns
    that value after starting the process, waiting 2 seconds and one call
    of the API, and prints nothing. *)
Theorem start_ngrok_returns_first_tunnel (r : TunnelsResponse)
    (d t : gmap string json) (rest : list json) (v : json) :
  popen ["ngrok"; "http"; "5000"] = Returns tt →
  requests_get "http://127.0.0.1:4040/api/tunnels" = Returns r →
  json_of r = Returns (JObj d) →
  d !! "tunnels" = Some (JArr (JObj t :: rest)) →
  t !! "public_url" = Some v →
  start_ngrok popen requests_get str_exn
  = ([Popen ["ngrok"; "http"; "5000"]; Sleep 2;
      Get "http://127.0.0.1:4040/api/tunnels"],
     Returns v).
Proof.
  intros Hp Hg Hj Ht Hu. rewrite (start_ngrok_started Hp).
  assert (public_url (requests_get "http://127.0.0.1:4040/api/tunnels")
          = Returns v) as ->; [|done].
  apply public_url_Returns. by exists r, d, t, rest.
Qed.

(** X19: [start_ngrok] returns a value other than [None] only if the ngrok
    API answered a JSON object whose [tunnels] is a list that starts with
    an object holding that value as [public_url]; no other shape of answer
    gives a URL. *)
Theorem start_ngrok_url_comes_from_first_tunnel (v : json) :
  (start_ngrok popen requests_get str_exn).2 = Returns v →
  v ≠ JNull →
  ∃ r d t rest,
    requests_get "http://127.0.0.1:4040/api/tunnels" = Returns r
    ∧ json_of r = Returns (JObj d)
    ∧ d !! "tunnels" = Some (JArr (JObj t :: rest))
    ∧ t !! "public_url" = Some v.
Proof.
  intros H Hv.
  destruct (popen ["ngrok"; "http"; "5000"]) as [[]|e'] eqn:Hp.
  - rewrite (start_ngrok_started Hp) in H.
    destruct (public_url (requests_get _)) as [x|e] eqn:Hu.
    + injection H as ->. by apply public_url_Returns.
    + injection H as <-. done.
  - unfold start_ngrok in H. rewrite Hp in H. done.
Qed.

(** X20: once the process is started, [start_ngrok] returns, and what it
    returns is fixed by the [try] block: the value of
    [json()["tunnels"][0]["public_url"]] with no output when the block
    yields one, and [None] after printing the one line that holds the text
    of the exception [e] when the block raises [e].  The call of the API,
    the decoding of its answer, a missing [tunnels] key and an empty
    [tunnels] list are such exceptions. *)
Theorem start_ngrok_swallows_failures :
  popen ["ngrok"; "http"; "5000"] = Returns tt →
  let run := start_ngrok popen requests_get str_exn in
  let answer := requests_get "http://127.0.0.1:4040/api/tunnels" in
  let done := [Popen ["ngrok"; "http"; "5000"]; Sleep 2;
               Get "http://127.0.0.1:4040/api/tunnels"] in
  let failed := λ e : raised,
    ((done ++ [Print ("Error fetching ngrok URL: " +:+ str_exn e)])%list,
     Returns JNull) in
  (∀ v, public_url answer = Returns v → run = (done, Returns v))
  ∧ (∀ e, public_url answer = Raises e → run = failed e)
  ∧ (∀ e, answer = Raises e → run = failed e)
  ∧ (∀ r e, answer = Returns r → json_of r = Raises e → run = failed e)
  ∧ (∀ r d, answer = Returns r → json_of r = Returns (JObj d) →
            d !! "tunnels" = None → run = failed KeyError)
  ∧ (∀ r d, answer = Returns r → json_of r = Returns (JObj d) →
            d !! "tunnels" = Some (JArr []) → run = failed (Std IndexError)).
Proof.
  intros Hp run answer done failed. subst run answer done failed.
  rewrite (start_ngrok_started Hp).
  split; [by intros v ->|]. split; [by intros e ->|].
  split; [by intros e ->|]. split; [|split].
  - intros r e -> Hj. cbn. by rewrite Hj.
  - intros r d -> Hj Ht. cbn. rewrite Hj. cbn. by rewrite Ht.
  - intros r d -> Hj Ht. cbn. rewrite Hj. cbn. by rewrite Ht.
Qed.

End LaunchLaws.

Lemma start_ngrok_returns_first_tunnel_witness :
  Double.popen ["ngrok"; "http"; "5000"] = Launch.Returns tt
  ∧ Double.ngrok_api true "http://127.0.0.1:4040/api/tunnels"
    = Launch.Returns
        {| Launch.json_of := Launch.Returns (JObj (Double.tunnels true)) |}
  ∧ Double.tunnels true !! "tunnels" = Some (JArr [JObj Double.tunnel])
  ∧ Double.tunnel !! "public_url" = Some (JStr "https://abc.ngrok.io")
  ∧ Launch.start_ngrok Double.popen (Double.ngrok_api true) Double.str_exn
    = ([Launch.Popen ["ngrok"; "http"; "5000"]; Launch.Sleep 2;
        Launch.Get "http://127.0.0.1:4040/api/tunnels"],
       Launch.Returns (JStr "https://abc.ngrok.io")).
Proof.
  assert (Double.popen ["ngrok"; "http"; "5000"] = Launch.Returns tt) as Hp
    by reflexivity.
  assert (Double.ngrok_api true "http://127.0.0.1:4040/api/tunnels"
          = Launch.Returns
              {| Launch.json_of :=
                   Launch.Returns (JObj (Double.tunnels true)) |}) as Hg
    by reflexivity.
  assert (Double.tunnels true !! "tunnels"
          = Some (JArr [JObj Double.tunnel])) as Ht
    by (vm_compute; reflexivity).
  assert (Double.tunnel !! "public_url" = Some (JStr "https://abc.ngrok.io"))
    as Hu by (vm_compute; reflexivity).
  repeat (split; [assumption|]).
  exact (start_ngrok_returns_first_tunnel Double.popen (Double.ngrok_api true)
           Double.str_exn _ _ _ _ _ Hp Hg eq_refl Ht Hu).
Defined.

Lemma start_ngrok_url_comes_from_first_tunnel_witness :
  (Launch.start_ngrok Double.popen (Double.ngrok_api true) Double.str_exn).2
  = Launch.Returns (JStr "https://abc.ngrok.io")
  ∧ JStr "https://abc.ngrok.io" ≠ JNull
  ∧ (∃ r d t rest,
       Double.ngrok_api true "http://127.0.0.1:4040/api/tunnels"
       = Launch.Returns r
       ∧ Launch.json_of r = Launch.Returns (JObj d)
       ∧ d !! "tunnels" = Some (JArr (JObj t :: rest))
       ∧ t !! "public_url" = Some (JStr "https://abc.ngrok.io")).
Proof.
  assert ((Launch.start_ngrok Double.popen (Double.ngrok_api true)
                              Double.str_exn).2
          = Launch.Returns (JStr "https://abc.ngrok.io")) as H
    by (vm_compute; reflexivity).
  assert (JStr "https://abc.ngrok.io" ≠ JNull) as Hv by discriminate.
  repeat (split; [assumption|]).
  exact (start_ngrok_url_comes_from_first_tunnel Double.popen
           (Double.ngrok_api true) Double.str_exn _ H Hv).
Defined.

Lemma start_ngrok_swallows_failures_witness :
  Double.popen ["ngrok"; "http"; "5000"] = Launch.Returns tt
  ∧ Double.ngrok_api false "http://127.0.0.1:4040/api/tunnels"
    = Launch.Returns
        {| Launch.json_of := Launch.Returns (JObj (Double.tunnels false)) |}
  ∧ Double.tunnels false !! "tunnels" = Some (JArr [])
  ∧ Launch.start_ngrok Double.popen (Double.ngrok_api false) Double.str_exn
    = (([Launch.Popen ["ngrok"; "http"; "5000"]; Launch.Sleep 2;
         Launch.Get "http://127.0.0.1:4040/api/tunnels"]
        ++ [Launch.Print ("Error fetching ngrok URL: "
                          +:+ Double.str_exn (Launch.Std IndexError))])%list,
       Launch.Returns JNull).
Proof.
  assert (Double.popen ["ngrok"; "http"; "5000"] = Launch.Returns tt) as Hp
    by reflexivity.
  assert (Double.ngrok_api false "http://127.0.0.1:4040/api/tunnels"
          = Launch.Returns
              {| Launch.json_of :=
                   Launch.Returns (JObj (Double.tunnels false)) |}) as Hg
    by reflexivity.
  assert (Double.tunnels false !! "tunnels" = Some (JArr [])) as Ht
    by (vm_compute; reflexivity).
  repeat (split; [assumption|]).
  destruct (start_ngrok_swallows_failures Double.popen
              (Double.ngrok_api false) Double.str_exn Hp)
    as (_ & _ & _ & _ & _ & Hempty).
  exact (Hempty _ _ Hg eq_refl Ht).
Defined.

(** The ngrok API is up but has no tunnel yet: the [IndexError] of
    [tunnels[0]] is printed and the function returns [None]. *)
Example start_ngrok_without_tunnel :
  Launch.start_ngrok Double.popen (Double.ngrok_api false) Double.str_exn
  = ([Launch.Popen ["ngrok"; "http"; "5000"]; Launch.Sleep 2;
      Launch.Get "http://127.0.0.1:4040/api/tunnels";
      Launch.Print "Error fetching ngrok URL: list index out of range"],
     Launch.Returns JNull).
Proof. vm_compute. reflexivity. Qed.

(** ngrok is not installed: the exception of [Popen] leaves the function. *)
Example start_ngrok_without_ngrok :
  Launch.start_ngrok Double.no_ngrok (Double.ngrok_api true) Double.str_exn
  = ([Launch.Popen ["ngrok"; "http"; "5000"]], Launch.Raises Launch.OSError).
Proof. reflexivity. Qed.
